(** * me.video: display surface sizing, scaling and backend selection

    A shallow embedding of [src/video/video.js] (melonJS).  JavaScript
    numbers are IEEE 754 binary64 values, modelled by [spec_float] with
    precision 53 and maximal exponent 1024, so every arithmetic step below
    rounds exactly as the engine does. *)

From Stdlib Require Import ZArith List String Ascii Bool Lia.
From Stdlib Require Import Floats.SpecFloat.
Import ListNotations.
Open Scope Z_scope.

(** ** JavaScript numbers *)

Definition number := spec_float.

Definition prec : Z := 53.
Definition emax : Z := 1024.

Definition Infinity : number := S754_infinity false.
Definition NaN : number := S754_nan.

(** The number denoted by an integer literal. *)
Definition of_Z (z : Z) : number := binary_normalize prec emax z 0 false.

(** The literal [0.5]. *)
Definition half : number := binary_normalize prec emax 1 (-1) false.

Definition add : number -> number -> number := SFadd prec emax.
Definition sub : number -> number -> number := SFsub prec emax.
Definition mul : number -> number -> number := SFmul prec emax.
Definition div : number -> number -> number := SFdiv prec emax.

(** [a < b] and [a > b]; both are false as soon as one side is NaN. *)
Definition num_lt (a b : number) : bool := SFltb a b.
Definition num_gt (a b : number) : bool := SFltb b a.

(** [a === b] on numbers. *)
Definition strict_eq (a b : number) : bool := SFeqb a b.

(** ToBoolean on a number: zero (of either sign) and NaN are falsy. *)
Definition truthy (n : number) : bool :=
  match n with
  | S754_zero _ | S754_nan => false
  | _ => true
  end.

(** [a || b] where [a] is a number. *)
Definition or_else (a b : number) : number := if truthy a then a else b.

(** [a || b] where [a] is a number or [undefined] ([None]). *)
Definition or_undef (a : option number) (b : number) : number :=
  match a with
  | Some n => or_else n b
  | None => b
  end.

(** [Math.min(a, b)]: NaN is contagious and [-0] is below [+0]. *)
Definition Math_min (a b : number) : number :=
  match SFcompare a b with
  | None => NaN
  | Some Lt => a
  | Some Gt => b
  | Some Eq =>
      match a with
      | S754_zero true => a
      | _ => b
      end
  end.

(** Integer part of the magnitude [m * 2^e], and whether nothing was cut. *)
Definition trunc_mag (m : positive) (e : Z) : Z * bool :=
  match e with
  | Zneg p => (Z.shiftr (Zpos m) (Zpos p),
               Z.eqb (Z.land (Zpos m) (Z.ones (Zpos p))) 0)
  | _ => (Z.shiftl (Zpos m) e, true)
  end.

(** [Math.floor(x)]. *)
Definition Math_floor (x : number) : number :=
  match x with
  | S754_finite s m (Zneg p) =>
      let '(q, exact) := trunc_mag m (Zneg p) in
      if s then of_Z (if exact then - q else - (q + 1)) else of_Z q
  | _ => x
  end.

(** ToInt32: truncate toward zero, wrap modulo 2^32, read as signed. *)
Definition ToInt32 (x : number) : Z :=
  match x with
  | S754_finite s m e =>
      let q := fst (trunc_mag m e) in
      let r := (if s then - q else q) mod 2 ^ 32 in
      if r >=? 2 ^ 31 then r - 2 ^ 32 else r
  | _ => 0
  end.

(** [~~x]: a double bitwise not is ToInt32. *)
Definition double_tilde (x : number) : number := of_Z (ToInt32 x).

(** ** Values other than numbers *)

Inductive jsval : Type :=
| VUndef
| VBool (b : bool)
| VNum (n : number)
| VObj.

(** [v !== true]. *)
Definition not_strictly_true (v : jsval) : bool :=
  match v with
  | VBool true => false
  | _ => true
  end.

(** ** Settings, renderer and host *)

Record Settings : Type := {
  settings_renderer : Z;
  doubleBuffering : bool;
  autoScale : bool;
  settings_scale : number;
  scaleMethod : string;
  useParentDOMSize : bool;
  transparent : bool;
  blendMode : string;
  antiAlias : bool;
  preferWebGL1 : bool;
  settings_width : number;
  settings_height : number;
  zoomX : number;
  zoomY : number
}.

(** [me.video.CANVAS], [me.video.WEBGL], [me.video.AUTO]. *)
Definition CANVAS : Z := 0.
Definition WEBGL : Z := 1.
Definition AUTO : Z := 2.

(** The screen canvas: its drawing-buffer size and the two style
    properties the module assigns, each holding the number that was joined
    with ["px"] ([None] while never assigned). *)
Record Canvas : Type := {
  width : number;
  height : number;
  style_width : option number;
  style_height : option number
}.

Inductive RendererKind : Type := WebGLRenderer | CanvasRenderer.

(** Modelled from the spec: the renderer classes ([me.CanvasRenderer],
    [me.WebGLRenderer]) are not part of this file.  Section 6 of the
    specification gives their contract: [resize(w,h)] sets the surface
    size, [setAntiAlias(flag)] and [setBlendMode(mode)] set two flags,
    [updateBounds()] refreshes the container bounds.  The model keeps the
    flags and counts the bounds refreshes. *)
Record Renderer : Type := {
  kind : RendererKind;
  canvas : Canvas;
  renderer_settings : Settings;
  smoothing : bool;
  blend : string;
  boundsUpdates : nat
}.

Definition with_canvas (c : Canvas) (r : Renderer) : Renderer :=
  {| kind := kind r; canvas := c; renderer_settings := renderer_settings r;
     smoothing := smoothing r; blend := blend r;
     boundsUpdates := boundsUpdates r |}.

Definition resize (w h : number) (r : Renderer) : Renderer :=
  with_canvas {| width := w; height := h;
                 style_width := style_width (canvas r);
                 style_height := style_height (canvas r) |} r.

Definition setAntiAlias (enable : bool) (r : Renderer) : Renderer :=
  {| kind := kind r; canvas := canvas r;
     renderer_settings := renderer_settings r;
     smoothing := enable; blend := blend r;
     boundsUpdates := boundsUpdates r |}.

Definition setBlendMode (mode : string) (r : Renderer) : Renderer :=
  {| kind := kind r; canvas := canvas r;
     renderer_settings := renderer_settings r;
     smoothing := smoothing r; blend := mode;
     boundsUpdates := boundsUpdates r |}.

Definition updateBounds (r : Renderer) : Renderer :=
  {| kind := kind r; canvas := canvas r;
     renderer_settings := renderer_settings r;
     smoothing := smoothing r; blend := blend r;
     boundsUpdates := S (boundsUpdates r) |}.

Record DOMRect : Type := {
  rect_width : number;
  rect_height : number;
  rect_left : number;
  rect_right : number;
  rect_top : number;
  rect_bottom : number
}.

(** The canvas' parent node.  [getBoundingClientRect] is [None] when the
    node has no such function; [node_width] and [node_height] are the
    plain properties read otherwise ([None] for [undefined]). *)
Record ParentNode : Type := {
  getBoundingClientRect : option DOMRect;
  node_width : option number;
  node_height : option number
}.

(** What the host reports at the time of a call.  [parentNode] is the
    canvas' [parentNode] property: [None] when it is [undefined] (a host
    without DOM), a node once the canvas is attached, as [init] leaves it;
    a detached canvas, whose parent is [null], is not a [Host]. *)
Record Host : Type := {
  innerWidth : number;
  innerHeight : number;
  devicePixelRatio : number;
  parentNode : option ParentNode
}.

(** ** Deferred tasks *)

Inductive Task : Type :=
| TaskScale (x y : number)
| TaskOnresize.

(** Modelled from the spec: [me.utils.function.defer] and the host's
    timers are not part of this file.  Section 6 gives the contract
    [defer(fn) -> cancellable token]; the host hands out fresh handles in
    increasing order, and a cleared handle never fires. *)
Record Timers : Type := {
  pending : list (Z * Task);
  next_handle : Z
}.

Definition defer (t : Task) (q : Timers) : Z * Timers :=
  (next_handle q,
   {| pending := pending q ++ [(next_handle q, t)];
      next_handle := next_handle q + 1 |}).

Definition clearTimeout (id : Z) (q : Timers) : Timers :=
  {| pending := filter (fun p => negb (fst p =? id)) (pending q);
     next_handle := next_handle q |}.

(** ** Module state *)

Record Video : Type := {
  deferResizeId : Z;
  designRatio : number;
  designWidth : number;
  designHeight : number;
  maxWidth : number;
  maxHeight : number;
  settings : Settings;
  renderer : Renderer;
  sys_scale : number * number;
  repaints : nat;
  timers : Timers
}.

Definition with_deferResizeId (id : Z) (v : Video) : Video :=
  {| deferResizeId := id; designRatio := designRatio v;
     designWidth := designWidth v; designHeight := designHeight v;
     maxWidth := maxWidth v; maxHeight := maxHeight v;
     settings := settings v; renderer := renderer v;
     sys_scale := sys_scale v; repaints := repaints v;
     timers := timers v |}.

Definition with_max (w h : number) (v : Video) : Video :=
  {| deferResizeId := deferResizeId v; designRatio := designRatio v;
     designWidth := designWidth v; designHeight := designHeight v;
     maxWidth := w; maxHeight := h;
     settings := settings v; renderer := renderer v;
     sys_scale := sys_scale v; repaints := repaints v;
     timers := timers v |}.

Definition with_renderer (r : Renderer) (v : Video) : Video :=
  {| deferResizeId := deferResizeId v; designRatio := designRatio v;
     designWidth := designWidth v; designHeight := designHeight v;
     maxWidth := maxWidth v; maxHeight := maxHeight v;
     settings := settings v; renderer := r;
     sys_scale := sys_scale v; repaints := repaints v;
     timers := timers v |}.

Definition with_sys_scale (x y : number) (v : Video) : Video :=
  {| deferResizeId := deferResizeId v; designRatio := designRatio v;
     designWidth := designWidth v; designHeight := designHeight v;
     maxWidth := maxWidth v; maxHeight := maxHeight v;
     settings := settings v; renderer := renderer v;
     sys_scale := (x, y); repaints := repaints v;
     timers := timers v |}.

Definition with_repaint (v : Video) : Video :=
  {| deferResizeId := deferResizeId v; designRatio := designRatio v;
     designWidth := designWidth v; designHeight := designHeight v;
     maxWidth := maxWidth v; maxHeight := maxHeight v;
     settings := settings v; renderer := renderer v;
     sys_scale := sys_scale v; repaints := S (repaints v);
     timers := timers v |}.

Definition with_timers (q : Timers) (v : Video) : Video :=
  {| deferResizeId := deferResizeId v; designRatio := designRatio v;
     designWidth := designWidth v; designHeight := designHeight v;
     maxWidth := maxWidth v; maxHeight := maxHeight v;
     settings := settings v; renderer := renderer v;
     sys_scale := sys_scale v; repaints := repaints v;
     timers := q |}.

(** ** api.scale *)

(** Modelled from the spec: [me.Vector2d], the class of [me.sys.scale],
    is not part of this file and the specification is silent on it.  The
    engine's [set(x, y)] checks [x !== +x || y !== +y] and throws an
    Error on it; for numbers that is the case exactly when one of them is
    NaN. *)
Definition invalid_vector (x y : number) : bool :=
  negb (strict_eq x x) || negb (strict_eq y y).

(** Whether [scale(x, y)] throws: only [me.sys.scale.set] can. *)
Definition scale_throws (x y : number) : bool := invalid_vector x y.

(** The module state [scale(x, y)] leaves, whether it returns or throws.
    The throw comes before the first write, so it leaves the state as it
    was. *)
Definition scale (x y : number) (h : Host) (v : Video) : Video :=
  if invalid_vector x y then v else
  let cv := canvas (renderer v) in
  let rs := renderer_settings (renderer v) in
  let w := mul (width cv) x in
  let ht := mul (height cv) y in
  (* update the global scale variable *)
  let v := with_sys_scale x y v in
  (* adjust CSS style for High-DPI devices *)
  let cv :=
    if num_gt (devicePixelRatio h) (of_Z 1) then
      {| width := width cv; height := height cv;
         style_width := Some (div w (devicePixelRatio h));
         style_height := Some (div ht (devicePixelRatio h)) |}
    else
      {| width := width cv; height := height cv;
         style_width := Some w;
         style_height := Some ht |} in
  let r := with_canvas cv (renderer v) in
  let r := setAntiAlias (antiAlias rs) r in
  let r := setBlendMode (blendMode rs) r in
  (* update parent container bounds *)
  let r := updateBounds r in
  let v := with_renderer r v in
  (* force repaint *)
  let v := with_repaint v in
  (* clear timeout id if defined *)
  with_deferResizeId (-1) v.

(** ** api.onresize *)

(** [parentNodeWidth] and [parentNodeHeight]. *)
Definition parentNodeSize (h : Host) (s : Settings)
  : option number * option number :=
  match parentNode h with
  | None => (None, None)
  | Some node =>
      match useParentDOMSize s, getBoundingClientRect node with
      | true, Some rect =>
          (Some (or_else (rect_width rect)
                   (sub (rect_right rect) (rect_left rect))),
           Some (or_else (rect_height rect)
                   (sub (rect_bottom rect) (rect_top rect))))
      | _, _ => (node_width node, node_height node)
      end
  end.

Definition _max_width (v : Video) (h : Host) : number :=
  Math_floor (Math_min (maxWidth v)
    (or_undef (fst (parentNodeSize h (settings v))) (innerWidth h))).

Definition _max_height (v : Video) (h : Host) : number :=
  Math_floor (Math_min (maxHeight v)
    (or_undef (snd (parentNodeSize h (settings v))) (innerHeight h))).

Definition screenRatio (v : Video) (h : Host) : number :=
  div (_max_width v h) (_max_height v h).

(** What the policy branches decide: the two scale factors before the
    pixel-ratio adjustment, and the arguments of the [renderer.resize]
    call, if one is made. *)
Record Resize : Type := {
  scaleX : number;
  scaleY : number;
  surface : option (number * number)
}.

Definition policy (v : Video) (h : Host) : Resize :=
  let method := scaleMethod (settings v) in
  let ratio := screenRatio v h in
  if ((method =? "fill-min")%string && num_gt ratio (designRatio v))
     || ((method =? "fill-max")%string && num_lt ratio (designRatio v))
     || (method =? "flex-width")%string
  then
    let sWidth := Math_min (maxWidth v) (mul (designHeight v) ratio) in
    let s := div (_max_width v h) sWidth in
    {| scaleX := s; scaleY := s;
       surface := Some (double_tilde (add sWidth half), designHeight v) |}
  else if ((method =? "fill-min")%string && num_lt ratio (designRatio v))
     || ((method =? "fill-max")%string && num_gt ratio (designRatio v))
     || (method =? "flex-height")%string
  then
    let sHeight :=
      Math_min (maxHeight v)
        (mul (designWidth v) (div (_max_height v h) (_max_width v h))) in
    let s := div (_max_height v h) sHeight in
    {| scaleX := s; scaleY := s;
       surface := Some (designWidth v, double_tilde (add sHeight half)) |}
  else if (method =? "flex")%string then
    {| scaleX := of_Z 1; scaleY := of_Z 1;
       surface := Some (_max_width v h, _max_height v h) |}
  else if (method =? "stretch")%string then
    {| scaleX := div (_max_width v h) (designWidth v);
       scaleY := div (_max_height v h) (designHeight v);
       surface := None |}
  else if num_lt ratio (designRatio v) then
    let s := div (_max_width v h) (designWidth v) in
    {| scaleX := s; scaleY := s; surface := None |}
  else
    let s := div (_max_height v h) (designHeight v) in
    {| scaleX := s; scaleY := s; surface := None |}.

(** The factors handed to [scale]: adjusted by the device pixel ratio. *)
Definition adjusted (v : Video) (h : Host) : number * number :=
  (mul (scaleX (policy v h)) (devicePixelRatio h),
   mul (scaleY (policy v h)) (devicePixelRatio h)).

(** The state [onresize] has reached, with autoscaling on, when it defers
    or applies the factors: the canvas resized as the policy asks and the
    pending resize cancelled. *)
Definition prepared (v : Video) (h : Host) : Video :=
  let v :=
    match surface (policy v h) with
    | Some (w, ht) => with_renderer (resize w ht (renderer v)) v
    | None => v
    end in
  if deferResizeId v >? 0 then
    with_timers (clearTimeout (deferResizeId v) (timers v)) v
  else v.

(** Whether [onresize] throws: only its immediate call of [scale] can. *)
Definition onresize_throws (force : jsval) (h : Host) (v : Video) : bool :=
  autoScale (settings v) && negb (not_strictly_true force)
  && scale_throws (fst (adjusted v h)) (snd (adjusted v h)).

(** The module state [onresize] leaves, whether it returns or throws.  An
    exception out of [scale] leaves [onresize] before the final
    [updateBounds], after the canvas was resized and the pending resize
    cancelled. *)
Definition onresize (force : jsval) (h : Host) (v : Video) : Video :=
  let v' :=
    if autoScale (settings v) then
      let '(sx, sy) := adjusted v h in
      let v :=
        match surface (policy v h) with
        | Some (w, ht) => with_renderer (resize w ht (renderer v)) v
        | None => v
        end in
      let v :=
        if deferResizeId v >? 0 then
          (* cancel any previous pending resize *)
          with_timers (clearTimeout (deferResizeId v) (timers v)) v
        else v in
      if not_strictly_true force then
        let '(id, q) := defer (TaskScale sx sy) (timers v) in
        with_deferResizeId id (with_timers q v)
      else
        scale sx sy h v
    else v in
  if onresize_throws force h v then v'
  else
    (* update parent container bounds *)
    with_renderer (updateBounds (renderer v')) v'.

(** ** api.setMaxSize *)

Definition setMaxSize (w h : option number) (v : Video) : Video :=
  let v := with_max (or_undef w Infinity) (or_undef h Infinity) v in
  with_timers (snd (defer TaskOnresize (timers v))) v.

(** ** The host firing a timer *)

(** A pending handle is removed from the queue and its task runs; a
    deferred [onresize] is called without argument.  A handle that is not
    pending (never issued, already fired, or cleared) does nothing.  An
    exception out of the task ends it; the state is as the task left
    it. *)
Definition fire (id : Z) (h : Host) (v : Video) : Video :=
  match find (fun p => fst p =? id) (pending (timers v)) with
  | None => v
  | Some (_, t) =>
      let v := with_timers (clearTimeout id (timers v)) v in
      match t with
      | TaskScale x y => scale x y h v
      | TaskOnresize => onresize VUndef h v
      end
  end.

(** The deferred [scale] applications still pending. *)
Definition is_scale_task (p : Z * Task) : bool :=
  match snd p with
  | TaskScale _ _ => true
  | TaskOnresize => false
  end.

Definition pending_scales (v : Video) : list (Z * Task) :=
  filter is_scale_task (pending (timers v)).

(** ** Regular expressions, as far as the policy-name test needs them *)

Inductive regex : Type :=
| Eps
| Chr (c : ascii)
| Cat (r1 r2 : regex)
| Alt (r1 r2 : regex)
| Opt (r : regex)
| Bol
| Eol.

(** A literal run of characters. *)
Fixpoint Lit (s : string) : regex :=
  match s with
  | EmptyString => Eps
  | String c s' => Cat (Chr c) (Lit s')
  end.

(** Backtracking matcher: [rmatch r pos s k] tries [r] at index [pos],
    where [s] is the input from [pos] on, and hands the index and input
    left over to the continuation [k].  [Bol] holds at index 0 only and
    [Eol] at the end of the input only (no multiline flag). *)
Fixpoint rmatch (r : regex) (pos : nat) (s : list ascii)
  (k : nat -> list ascii -> bool) : bool :=
  match r with
  | Eps => k pos s
  | Chr c =>
      match s with
      | c' :: s' => Ascii.eqb c c' && k (S pos) s'
      | [] => false
      end
  | Cat r1 r2 => rmatch r1 pos s (fun pos' s' => rmatch r2 pos' s' k)
  | Alt r1 r2 => rmatch r1 pos s k || rmatch r2 pos s k
  | Opt r1 => rmatch r1 pos s k || k pos s
  | Bol => Nat.eqb pos 0 && k pos s
  | Eol =>
      match s with
      | [] => k pos s
      | _ :: _ => false
      end
  end.

Fixpoint search_from (r : regex) (pos : nat) (s : list ascii) : Z :=
  if rmatch r pos s (fun _ _ => true) then Z.of_nat pos
  else
    match s with
    | [] => -1
    | _ :: s' => search_from r (S pos) s'
    end.

(** [str.search(r)]: the index of the first match, or -1. *)
Definition search (str : string) (r : regex) : Z :=
  search_from r 0 (list_ascii_of_string str).

(** [(fill-(min|max)|fit|flex(-(width|height))?|stretch)] *)
Definition scaleMethod_group : regex :=
  Alt (Cat (Lit "fill-") (Alt (Lit "min") (Lit "max")))
 (Alt (Lit "fit")
 (Alt (Cat (Lit "flex")
           (Opt (Cat (Chr "-") (Alt (Lit "width") (Lit "height")))))
      (Lit "stretch"))).

(** [/^(fill-(min|max)|fit|flex(-(width|height))?|stretch)$/] *)
Definition scaleMethod_pattern : regex :=
  Cat Bol (Cat scaleMethod_group Eol).

(** The sanitizing step of [init] on [settings.scaleMethod]. *)
Definition sanitize_scaleMethod (m : string) : string :=
  if negb (search m scaleMethod_pattern =? 0) then "fit"%string else m.

(** The seven policy names of the documentation. *)
Definition policy_names : list string :=
  ["fit"; "fill-min"; "fill-max"; "flex"; "flex-width"; "flex-height";
   "stretch"]%string.

(** ** Exceptions *)

Inductive Error : Type :=
| TypeError
| ErrorMessage (msg : string)
| InvalidParameters.  (* the Error of [me.Vector2d.set] *)

Inductive outcome (A : Type) : Type :=
| Returned (a : A)
| Thrown (e : Error).

Arguments Returned {A} a.
Arguments Thrown {A} e.

(** A host value is an object or a function; calling an object throws a
    TypeError.  The global [console] is an object: only its methods, such
    as [console.log], are functions. *)
Inductive HostValue : Type := HostObject | HostFunction.

Definition console : HostValue := HostObject.

Definition call (f : HostValue) : outcome unit :=
  match f with
  | HostFunction => Returned tt
  | HostObject => Thrown TypeError
  end.

(** ** Backend selection *)

(** What the engine around the module provides at initialization.  The
    capability probe and the two constructors return [None] when they
    throw. *)
Record Platform : Type := {
  initialized : bool;
  uri_webgl : bool;
  uri_webgl1 : bool;
  uri_webgl2 : bool;
  isWebGLSupported : Settings -> option bool;
  newWebGLRenderer : Settings -> option Renderer;
  newCanvasRenderer : Settings -> option Renderer;
  computedMaxSize : option (option number * option number)
}.

(** The constructor calls made, in order, each with whether it returned. *)
Inductive Attempt : Type :=
| TryWebGL (ok : bool)
| TryCanvas (ok : bool).

Definition is_some {A : Type} (o : option A) : bool :=
  match o with
  | Some _ => true
  | None => false
  end.

(** The [try] block of [autoDetectRenderer]: the renderer it returns, if
    it returns one, and the constructor calls it made.  Whatever is thrown
    inside is caught and logged. *)
Definition tryWebGL (p : Platform) (options : Settings)
  : list Attempt * option Renderer :=
  match isWebGLSupported p options with
  | Some true =>
      ([TryWebGL (is_some (newWebGLRenderer p options))],
       newWebGLRenderer p options)
  | _ => ([], None)
  end.

Definition construct_canvas (p : Platform) (options : Settings)
  : list Attempt * outcome Renderer :=
  match newCanvasRenderer p options with
  | Some r => ([TryCanvas true], Returned r)
  | None =>
      ([TryCanvas false],
       Thrown (ErrorMessage "Canvas could not be initialized"))
  end.

Definition autoDetectRenderer (p : Platform) (options : Settings)
  : list Attempt * outcome Renderer :=
  match tryWebGL p options with
  | (calls, Some r) => (calls, Returned r)
  | (calls, None) =>
      let '(calls', res) := construct_canvas p options in
      (calls ++ calls', res)
  end.

(** The [switch] on [settings.renderer] in [init]. *)
Definition select_renderer (p : Platform) (s : Settings)
  : list Attempt * outcome Renderer :=
  if (settings_renderer s =? AUTO) || (settings_renderer s =? WEBGL)
  then autoDetectRenderer p s
  else construct_canvas p s.

(** Calls that returned a renderer. *)
Definition constructed (calls : list Attempt) : nat :=
  List.length (filter (fun a => match a with
                                | TryWebGL ok | TryCanvas ok => ok
                                end) calls).

Definition attempted_webgl (calls : list Attempt) : bool :=
  existsb (fun a => match a with
                    | TryWebGL _ => true
                    | TryCanvas _ => false
                    end) calls.

Definition attempted_canvas (calls : list Attempt) : bool :=
  existsb (fun a => match a with
                    | TryWebGL _ => false
                    | TryCanvas _ => true
                    end) calls.

(** ** api.init *)

(** [options.scale]: the string ["auto"] or a number. *)
Inductive ScaleOption : Type :=
| ScaleAuto
| ScaleNumber (n : number).

(** The settings object once [options] has been merged into the defaults,
    before it is sanitized. *)
Record Options : Type := {
  option_renderer : Z;
  option_doubleBuffering : bool;
  option_scale : ScaleOption;
  option_scaleMethod : string;
  option_useParentDOMSize : bool;
  option_transparent : bool;
  option_blendMode : string;
  option_antiAlias : bool;
  option_preferWebGL1 : bool
}.

Definition sanitize (game_width game_height : number) (o : Options)
  (p : Platform) : Settings :=
  let auto := match option_scale o with
              | ScaleAuto => true
              | ScaleNumber _ => false
              end in
  let override := uri_webgl p || uri_webgl1 p || uri_webgl2 p in
  (* normalize scale *)
  let s := match option_scale o with
           | ScaleAuto => of_Z 1
           | ScaleNumber n => or_else n (of_Z 1)
           end in
  {| settings_renderer := if override then WEBGL else option_renderer o;
     (* force double buffering if scaling is required *)
     doubleBuffering :=
       if auto || negb (strict_eq s (of_Z 1)) then true
       else option_doubleBuffering o;
     autoScale := auto;
     settings_scale := s;
     scaleMethod := sanitize_scaleMethod (option_scaleMethod o);
     useParentDOMSize := option_useParentDOMSize o;
     transparent := option_transparent o;
     blendMode := option_blendMode o;
     antiAlias := option_antiAlias o;
     preferWebGL1 :=
       if uri_webgl2 p then false else option_preferWebGL1 o;
     settings_width := game_width;
     settings_height := game_height;
     (* default scaled size value *)
     zoomX := mul game_width s;
     zoomY := mul game_height s |}.

Inductive Completion : Type :=
| ReturnTrue (v : Video)
| ReturnFalse
| Throw (e : Error).

(** adjust CSS style for High-DPI devices *)
Definition hidpi_style (ratio : number) (r : Renderer) : Renderer :=
  if num_gt ratio (of_Z 1) then
    with_canvas
      {| width := width (canvas r); height := height (canvas r);
         style_width := Some (div (width (canvas r)) ratio);
         style_height := Some (div (height (canvas r)) ratio) |} r
  else r.

(** The module state when [init] reaches its initial resize, [r] being
    the renderer it constructed. *)
Definition before_first_resize (game_width game_height : number)
  (o : Options) (p : Platform) (h : Host) (q : Timers) (r : Renderer)
  : Video :=
  let s := sanitize game_width game_height o p in
  let r := hidpi_style (devicePixelRatio h) r in
  let v :=
    {| deferResizeId := -1;
       (* hold the requested video size ratio *)
       designRatio := div game_width game_height;
       designWidth := game_width;
       designHeight := game_height;
       maxWidth := Infinity;
       maxHeight := Infinity;
       settings := s;
       renderer := r;
       sys_scale := (settings_scale s, settings_scale s);
       repaints := 0;
       timers := q |} in
  (* set max the canvas max size if CSS values are defined *)
  match computedMaxSize p with
  | Some (w, ht) => setMaxSize w ht v
  | None => v
  end.

Definition init (game_width game_height : number) (o : Options)
  (p : Platform) (h : Host) (q : Timers) : Completion :=
  (* ensure melonjs has been properly initialized *)
  if negb (initialized p) then
    Throw (ErrorMessage
             "me.video.init() called before engine initialization.")
  else
    let s := sanitize game_width game_height o p in
    match snd (select_renderer p s) with
    | Thrown _ =>
        (* catch (e) { console(e.message); return false; } *)
        match call console with
        | Thrown e => Throw e
        | Returned _ => ReturnFalse
        end
    | Returned r =>
        let v := before_first_resize game_width game_height o p h q r in
        (* trigger an initial resize(); it is outside the try block *)
        if onresize_throws (VBool true) h v then Throw InvalidParameters
        else ReturnTrue (onresize (VBool true) h v)
    end.

(** ** The sizing rules as the specification words them *)

(** The measured container width and height: the parent node's size, or
    the window's when that is missing or falsy. *)
Definition containerWidth (v : Video) (h : Host) : number :=
  or_undef (fst (parentNodeSize h (settings v))) (innerWidth h).

Definition containerHeight (v : Video) (h : Host) : number :=
  or_undef (snd (parentNodeSize h (settings v))) (innerHeight h).

(** [clampedW = min(bounds.maxWidth, container.width)], and likewise for
    the height. *)
Definition clampedW (v : Video) (h : Host) : number :=
  Math_min (maxWidth v) (containerWidth v h).

Definition clampedH (v : Video) (h : Host) : number :=
  Math_min (maxHeight v) (containerHeight v h).

(** Rounding to the nearest integer pixel, halves going up. *)
Definition round_half_up (x : number) : number := Math_floor (add x half).

(** [round(min(clampedW, designHeight*screenRatio))] with
    [screenRatio = clampedW/clampedH]. *)
Definition spec_fill_width (v : Video) (h : Host) : number :=
  round_half_up
    (Math_min (clampedW v h)
       (mul (designHeight v) (div (clampedW v h) (clampedH v h)))).

(** [clampedW / that computed width]. *)
Definition spec_fill_scale (v : Video) (h : Host) : number :=
  div (clampedW v h) (spec_fill_width v h).

(** ** Sample configurations *)

Definition plain_settings (method : string) (auto : bool) : Settings :=
  {| settings_renderer := AUTO; doubleBuffering := true;
     autoScale := auto; settings_scale := of_Z 1;
     scaleMethod := method; useParentDOMSize := false;
     transparent := false; blendMode := "normal"; antiAlias := false;
     preferWebGL1 := true;
     settings_width := of_Z 800; settings_height := of_Z 600;
     zoomX := of_Z 800; zoomY := of_Z 600 |}.

Definition plain_renderer (k : RendererKind) (s : Settings) : Renderer :=
  {| kind := k;
     canvas := {| width := settings_width s; height := settings_height s;
                  style_width := None; style_height := None |};
     renderer_settings := s; smoothing := false; blend := "normal";
     boundsUpdates := 0 |}.

(** An 800x600 design under the given policy, with autoscaling on, no
    display bounds, scale (1, 1) and nothing pending. *)
Definition video_800x600 (method : string) : Video :=
  {| deferResizeId := -1;
     designRatio := div (of_Z 800) (of_Z 600);
     designWidth := of_Z 800; designHeight := of_Z 600;
     maxWidth := Infinity; maxHeight := Infinity;
     settings := plain_settings method true;
     renderer := plain_renderer CanvasRenderer (plain_settings method true);
     sys_scale := (of_Z 1, of_Z 1); repaints := 0;
     timers := {| pending := []; next_handle := 1 |} |}.

(** A host whose canvas has no parent node, so that the window size is
    the container size; pixel ratio 1. *)
Definition window_host (w h : Z) : Host :=
  {| innerWidth := of_Z w; innerHeight := of_Z h;
     devicePixelRatio := of_Z 1; parentNode := None |}.

Definition plain_options (method : string) (choice : Z) : Options :=
  {| option_renderer := choice; option_doubleBuffering := false;
     option_scale := ScaleAuto; option_scaleMethod := method;
     option_useParentDOMSize := false; option_transparent := false;
     option_blendMode := "normal"; option_antiAlias := false;
     option_preferWebGL1 := true |}.

(** An initialized engine without URL override; [gl] says whether WebGL
    is supported and its renderer can be built, [cv] whether the canvas
    renderer can be built. *)
Definition plain_platform (gl cv : bool) : Platform :=
  {| initialized := true;
     uri_webgl := false; uri_webgl1 := false; uri_webgl2 := false;
     isWebGLSupported := fun _ => Some gl;
     newWebGLRenderer :=
       fun s => if gl then Some (plain_renderer WebGLRenderer s) else None;
     newCanvasRenderer :=
       fun s => if cv then Some (plain_renderer CanvasRenderer s) else None;
     computedMaxSize := Some (Some NaN, Some NaN) |}.

Definition no_timers : Timers := {| pending := []; next_handle := 1 |}.

(** A finite number above zero. *)
Definition positive_finite (x : number) : Prop :=
  match x with
  | S754_finite false _ _ => True
  | _ => False
  end.

(** Zero, a finite number above zero, or plus infinity. *)
Definition nonneg_number (x : number) : Prop :=
  match x with
  | S754_zero false | S754_finite false _ _ | S754_infinity false => True
  | _ => False
  end.


(** ** Events reaching the module *)

(** A container change (resize, orientation change or DOM mutation, or a
    direct forced call), a change of the display bounds, and the host
    firing a timer handle. *)
Inductive Event : Type :=
| ContainerChange (force : jsval) (h : Host)
| SetMaxSize (w ht : option number)
| TimerFires (id : Z) (h : Host).

Definition step (v : Video) (e : Event) : Video :=
  match e with
  | ContainerChange force h => onresize force h v
  | SetMaxSize w ht => setMaxSize w ht v
  | TimerFires id h => fire id h v
  end.

Definition run (es : list Event) (v : Video) : Video := fold_left step es v.

(** Handles are positive and every pending one was issued earlier. *)
Definition handles_fresh (q : Timers) : Prop :=
  0 < next_handle q
  /\ forall p, In p (pending q) -> fst p < next_handle q.

(** Nothing deferred, or the single application named by
    [deferResizeId]. *)
Definition at_most_one_pending (v : Video) : Prop :=
  pending_scales v = []
  \/ (0 < deferResizeId v
      /\ exists x y, pending_scales v = [(deferResizeId v, TaskScale x y)]).

Definition coordinated (v : Video) : Prop :=
  handles_fresh (timers v) /\ at_most_one_pending v.

(** The timer queue once [onresize] has cancelled the previous pending
    resize, if [deferResizeId] names one. *)
Definition after_cancel (v : Video) : Timers :=
  if deferResizeId v >? 0 then clearTimeout (deferResizeId v) (timers v)
  else timers v.

(** ** The words a pattern without anchors can match *)

Fixpoint anchor_free (r : regex) : bool :=
  match r with
  | Eps | Chr _ => true
  | Cat r1 r2 | Alt r1 r2 => anchor_free r1 && anchor_free r2
  | Opt r1 => anchor_free r1
  | Bol | Eol => false
  end.

(** In the order in which the matcher tries them. *)
Fixpoint lang (r : regex) : list (list ascii) :=
  match r with
  | Eps => [[]]
  | Chr c => [[c]]
  | Cat r1 r2 => flat_map (fun u => map (app u) (lang r2)) (lang r1)
  | Alt r1 r2 => lang r1 ++ lang r2
  | Opt r1 => lang r1 ++ [[]]
  | Bol | Eol => []
  end.

(** [strip_prefix w s] is what remains of [s] after its prefix [w]. *)
Fixpoint strip_prefix (w s : list ascii) : option (list ascii) :=
  match w, s with
  | [], _ => Some s
  | c :: w', c' :: s' => if Ascii.eqb c c' then strip_prefix w' s' else None
  | _ :: _, [] => None
  end.

(** Continuing after one of the words of [lang r]. *)
Definition after_word (pos : nat) (s : list ascii)
  (k : nat -> list ascii -> bool) (w : list ascii) : bool :=
  match strip_prefix w s with
  | Some s' => k (pos + List.length w)%nat s'
  | None => false
  end.

Definition with_scaleMethod (m : string) (o : Options) : Options :=
  {| option_renderer := option_renderer o;
     option_doubleBuffering := option_doubleBuffering o;
     option_scale := option_scale o;
     option_scaleMethod := m;
     option_useParentDOMSize := option_useParentDOMSize o;
     option_transparent := option_transparent o;
     option_blendMode := option_blendMode o;
     option_antiAlias := option_antiAlias o;
     option_preferWebGL1 := option_preferWebGL1 o |}.

(** An argument of [setMaxSize] that [||] replaces: [undefined], a zero
    or NaN. *)
Definition falsy (a : option number) : Prop :=
  match a with
  | None => True
  | Some n => truthy n = false
  end.

(** ** api.createCanvas *)

Inductive CanvasKind : Type := OffscreenCanvasElement | HTMLCanvasElement.

(** [deviceOffscreen] is [me.device.OffscreenCanvas === true].  The
    element is the host's: [assign k w ht] stands for creating an element
    of kind [k] and assigning [w] and [ht] to its [width] and [height],
    with whatever coercion or exception the host has for them. *)
Definition createCanvas {Element : Type}
  (assign : CanvasKind -> number -> number -> outcome Element)
  (w ht : number) (offscreen : jsval) (deviceOffscreen : bool)
  : outcome Element :=
  if strict_eq w (of_Z 0) || strict_eq ht (of_Z 0) then
    Thrown (ErrorMessage
              "width or height was zero, Canvas could not be initialized !")
  else
    assign (if deviceOffscreen && negb (not_strictly_true offscreen)
            then OffscreenCanvasElement
            else HTMLCanvasElement) w ht.

(** ** Auxiliary notions for the properties below *)

(** A well-formed binary64 value. *)
Definition valid (x : number) : Prop := valid_binary prec emax x = true.

(** A display bound that clamps nothing to zero: finite above zero, or
    plus infinity. *)
Definition positive_bound (x : number) : Prop :=
  match x with
  | S754_finite false _ _ | S754_infinity false => True
  | _ => False
  end.

(** The same module state under another scaling policy. *)
Definition with_method (m : string) (v : Video) : Video :=
  {| deferResizeId := deferResizeId v; designRatio := designRatio v;
     designWidth := designWidth v; designHeight := designHeight v;
     maxWidth := maxWidth v; maxHeight := maxHeight v;
     settings :=
       {| settings_renderer := settings_renderer (settings v);
          doubleBuffering := doubleBuffering (settings v);
          autoScale := autoScale (settings v);
          settings_scale := settings_scale (settings v);
          scaleMethod := m;
          useParentDOMSize := useParentDOMSize (settings v);
          transparent := transparent (settings v);
          blendMode := blendMode (settings v);
          antiAlias := antiAlias (settings v);
          preferWebGL1 := preferWebGL1 (settings v);
          settings_width := settings_width (settings v);
          settings_height := settings_height (settings v);
          zoomX := zoomX (settings v);
          zoomY := zoomY (settings v) |};
     renderer := renderer v;
     sys_scale := sys_scale v; repaints := repaints v;
     timers := timers v |}.

(** Event sequences in which [setMaxSize] is not called. *)
Definition no_bounds_change (es : list Event) : bool :=
  forallb (fun e => match e with
                    | SetMaxSize _ _ => false
                    | _ => true
                    end) es.

(** The fit rule as the specification words it, on the clamped sizes
    themselves: [clampedW/designWidth] when
    [clampedW/clampedH < designRatio], [clampedH/designHeight] otherwise,
    multiplied by the pixel ratio. *)
Definition spec_fit_scale (v : Video) (h : Host) : number :=
  mul (if num_lt (div (clampedW v h) (clampedH v h)) (designRatio v)
       then div (clampedW v h) (designWidth v)
       else div (clampedH v h) (designHeight v))
      (devicePixelRatio h).

(** A finite number whose integer part is below 2^31 in magnitude. *)
Definition below_2_31 (x : number) : Prop :=
  match x with
  | S754_zero _ => True
  | S754_finite _ m e => fst (trunc_mag m e) < 2 ^ 31
  | _ => False
  end.

(** Zero, a finite number above zero, plus infinity, or NaN: what the
    arithmetic of the policies yields from such numbers. *)
Definition not_negative (x : number) : Prop :=
  match x with
  | S754_zero false | S754_finite false _ _ | S754_infinity false
  | S754_nan => True
  | _ => False
  end.
(* ================================================================== *)
(** * Properties *)

(** ** Frame of [scale] and of [onresize] *)

Lemma scale_canvas_size (x y : number) (h : Host) (v : Video) :
  width (canvas (renderer (scale x y h v))) = width (canvas (renderer v))
  /\ height (canvas (renderer (scale x y h v)))
     = height (canvas (renderer v)).
Proof.
  unfold scale.
  destruct (invalid_vector x y); [split; reflexivity|].
  destruct (num_gt (devicePixelRatio h) (of_Z 1)); split; reflexivity.
Qed.

Lemma scale_invalid (x y : number) (h : Host) (v : Video) :
  invalid_vector x y = true -> scale x y h v = v.
Proof. intros H. unfold scale. rewrite H. reflexivity. Qed.

Lemma scale_sys_scale (x y : number) (h : Host) (v : Video) :
  invalid_vector x y = false -> sys_scale (scale x y h v) = (x, y).
Proof. intros H. unfold scale. rewrite H. reflexivity. Qed.

(** What [prepared] changes: the canvas size and the timer queue. *)
Lemma prepared_frame (v : Video) (h : Host) :
  settings (prepared v h) = settings v
  /\ designRatio (prepared v h) = designRatio v
  /\ designWidth (prepared v h) = designWidth v
  /\ designHeight (prepared v h) = designHeight v
  /\ maxWidth (prepared v h) = maxWidth v
  /\ maxHeight (prepared v h) = maxHeight v
  /\ deferResizeId (prepared v h) = deferResizeId v
  /\ sys_scale (prepared v h) = sys_scale v
  /\ repaints (prepared v h) = repaints v.
Proof.
  unfold prepared.
  destruct (surface (policy v h)) as [[w ht]|];
    cbn [deferResizeId with_renderer];
    destruct (deferResizeId v >? 0); repeat split; reflexivity.
Qed.

Lemma prepared_canvas (v : Video) (h : Host) :
  canvas (renderer (prepared v h))
  = match surface (policy v h) with
    | Some (w, ht) =>
        {| width := w; height := ht;
           style_width := style_width (canvas (renderer v));
           style_height := style_height (canvas (renderer v)) |}
    | None => canvas (renderer v)
    end.
Proof.
  unfold prepared.
  destruct (surface (policy v h)) as [[w ht]|];
    cbn [deferResizeId with_renderer];
    destruct (deferResizeId v >? 0); reflexivity.
Qed.

(** [onresize], case by case. *)
Lemma onresize_off (force : jsval) (h : Host) (v : Video) :
  autoScale (settings v) = false ->
  onresize force h v = with_renderer (updateBounds (renderer v)) v.
Proof.
  intros Hoff. unfold onresize, onresize_throws. rewrite Hoff. reflexivity.
Qed.

Lemma onresize_defers (force : jsval) (h : Host) (v : Video) :
  autoScale (settings v) = true ->
  not_strictly_true force = true ->
  let u := prepared v h in
  let d := with_deferResizeId (next_handle (timers u))
             (with_timers
                (snd (defer (TaskScale (fst (adjusted v h))
                                       (snd (adjusted v h))) (timers u)))
                u) in
  onresize force h v = with_renderer (updateBounds (renderer d)) d.
Proof.
  intros Hauto Hforce. unfold onresize, onresize_throws, prepared.
  rewrite Hauto, Hforce. cbn [negb andb].
  destruct (adjusted v h) as [sx sy]. reflexivity.
Qed.

Lemma onresize_applies (h : Host) (v : Video) :
  autoScale (settings v) = true ->
  let sx := fst (adjusted v h) in
  let sy := snd (adjusted v h) in
  let u := scale sx sy h (prepared v h) in
  onresize (VBool true) h v
  = if invalid_vector sx sy then prepared v h
    else with_renderer (updateBounds (renderer u)) u.
Proof.
  intros Hauto. unfold onresize, onresize_throws, scale_throws, prepared.
  rewrite Hauto. cbn [not_strictly_true negb andb].
  destruct (adjusted v h) as [sx sy]. cbn [fst snd].
  destruct (invalid_vector sx sy) eqn:Hinv; [|reflexivity].
  rewrite (scale_invalid _ _ _ _ Hinv). reflexivity.
Qed.

Lemma force_cases (force : jsval) :
  force = VBool true \/ not_strictly_true force = true.
Proof. destruct force as [|[]| |]; auto. Qed.

Lemma onresize_forced_sys_scale (h : Host) (v : Video) :
  autoScale (settings v) = true ->
  invalid_vector (fst (adjusted v h)) (snd (adjusted v h)) = false ->
  sys_scale (onresize (VBool true) h v) = adjusted v h.
Proof.
  intros Hauto Hok. rewrite (onresize_applies h v Hauto). cbv zeta.
  rewrite Hok. cbn [sys_scale with_renderer].
  rewrite (scale_sys_scale _ _ _ _ Hok). symmetry. apply surjective_pairing.
Qed.

Lemma onresize_surface (force : jsval) (h : Host) (v : Video)
  (w ht : number) :
  autoScale (settings v) = true ->
  surface (policy v h) = Some (w, ht) ->
  width (canvas (renderer (onresize force h v))) = w
  /\ height (canvas (renderer (onresize force h v))) = ht.
Proof.
  intros Hauto Hs.
  pose proof (prepared_canvas v h) as Hc. rewrite Hs in Hc.
  destruct (force_cases force) as [->|Hforce].
  - rewrite (onresize_applies h v Hauto). cbv zeta.
    destruct (invalid_vector _ _); [rewrite Hc; split; reflexivity|].
    cbn [renderer with_renderer updateBounds canvas].
    match goal with
    | |- context [scale ?x ?y ?h ?u] =>
        destruct (scale_canvas_size x y h u) as [Hw Hh]
    end.
    rewrite Hw, Hh, Hc. split; reflexivity.
  - rewrite (onresize_defers force h v Hauto Hforce). cbv zeta.
    cbn [renderer with_renderer with_timers with_deferResizeId
         updateBounds canvas].
    rewrite Hc. split; reflexivity.
Qed.

(** ** Rounding never produces NaN from a non-negative mantissa *)

Lemma shr_1_nonneg (mrs : shr_record) :
  0 <= shr_m mrs -> 0 <= shr_m (shr_1 mrs).
Proof.
  destruct mrs as [m r s]. cbn [shr_m shr_1].
  destruct m as [|p|p]; [| destruct p | destruct p]; cbn [shr_m]; lia.
Qed.

Lemma iter_pos_shr_1_nonneg (p : positive) :
  forall mrs, 0 <= shr_m mrs -> 0 <= shr_m (iter_pos shr_1 p mrs).
Proof.
  induction p as [p IH|p IH|]; intros mrs H; cbn [iter_pos].
  - apply IH, IH, shr_1_nonneg, H.
  - apply IH, IH, H.
  - apply shr_1_nonneg, H.
Qed.

Lemma shr_fexp_nonneg (m e : Z) (l : location) :
  0 <= m -> 0 <= shr_m (fst (shr_fexp prec emax m e l)).
Proof.
  intros H. unfold shr_fexp, shr.
  assert (H0 : 0 <= shr_m (shr_record_of_loc m l))
    by (destruct l as [|[]]; exact H).
  destruct (fexp prec emax (Zdigits2 m + e) - e) as [|n|n]; cbn [fst];
    [exact H0 | | exact H0].
  apply iter_pos_shr_1_nonneg, H0.
Qed.

Lemma round_nearest_even_nonneg (mx : Z) (lx : location) :
  0 <= mx -> 0 <= round_nearest_even mx lx.
Proof.
  intros H. unfold round_nearest_even.
  destruct lx as [|[]]; try destruct (Z.even mx); lia.
Qed.

Lemma binary_round_aux_nonneg (mx ex : Z) (lx : location) :
  0 <= mx -> nonneg_number (binary_round_aux prec emax false mx ex lx).
Proof.
  intros H. unfold binary_round_aux.
  pose proof (shr_fexp_nonneg mx ex lx H) as H1.
  destruct (shr_fexp prec emax mx ex lx) as [mrs' e']. cbn [fst] in H1.
  pose proof (shr_fexp_nonneg _ e' loc_Exact
                (round_nearest_even_nonneg _ (loc_of_shr_record mrs') H1))
    as H2.
  destruct (shr_fexp prec emax _ e' loc_Exact) as [mrs'' e''].
  cbn [fst] in H2.
  destruct (shr_m mrs'') as [|m|m]; [exact I | | lia].
  destruct (e'' <=? emax - prec); exact I.
Qed.

Lemma div_positive_finite (a b : number) :
  positive_finite a -> positive_finite b -> nonneg_number (div a b).
Proof.
  destruct a as [| | |[] ma ea]; try contradiction.
  destruct b as [| | |[] mb eb]; try contradiction.
  intros _ _. unfold div, SFdiv, SFdiv_core_binary.
  set (s := ea - eb - _).
  set (m' := match s with Z0 => _ | Zpos _ => _ | Zneg _ => _ end).
  assert (Hm : 0 <= m').
  { subst m'. destruct s; [lia | | lia].
    apply Z.shiftl_nonneg. lia. }
  assert (Hq : 0 <= fst (Z.div_eucl m' (Zpos mb)))
    by (apply (Z.div_pos m' (Zpos mb)); lia).
  destruct (Z.div_eucl m' (Zpos mb)) as [q r]. cbn [fst] in Hq.
  apply binary_round_aux_nonneg, Hq.
Qed.

Lemma mul_nonneg_positive (a b : number) :
  nonneg_number a -> positive_finite b -> nonneg_number (mul a b).
Proof.
  destruct b as [| | |[] mb eb]; try contradiction.
  destruct a as [[]|[]| |[] ma ea]; try contradiction; intros _ _.
  - exact I.
  - exact I.
  - unfold mul, SFmul. cbn [xorb]. apply binary_round_aux_nonneg. lia.
Qed.

Lemma strict_eq_refl (x : number) : nonneg_number x -> strict_eq x x = true.
Proof.
  destruct x as [[]|[]| |[] m e]; try contradiction; intros _;
    try reflexivity.
  unfold strict_eq, SFeqb, SFcompare.
  rewrite Z.compare_refl, Pos.compare_cont_refl. reflexivity.
Qed.

(** ** Comparisons and minimum on numbers *)

Lemma num_lt_asym (a b : number) : num_lt a b = true -> num_gt a b = false.
Proof.
  unfold num_lt, num_gt, SFltb, SFcompare.
  destruct a as [sa|sa| |sa ma ea], b as [sb|sb| |sb mb eb];
    try destruct sa; try destruct sb; try discriminate; try reflexivity.
  all: change (Pos.compare_cont Eq mb ma) with (Pos.compare mb ma);
    change (Pos.compare_cont Eq ma mb) with (Pos.compare ma mb);
    rewrite (Z.compare_antisym ea eb), (Pos.compare_antisym ma mb);
    destruct (ea ?= eb); cbn [CompOpp]; try discriminate; try reflexivity;
    destruct (Pos.compare ma mb); cbn [CompOpp];
    try discriminate; reflexivity.
Qed.

Lemma Math_min_cases (a b : number) :
  a <> NaN -> b <> NaN -> Math_min a b = a \/ Math_min a b = b.
Proof.
  intros Ha Hb. unfold Math_min.
  destruct (SFcompare a b) as [[]|] eqn:Hc.
  - destruct a as [[]| | |]; auto.
  - auto.
  - auto.
  - destruct a, b; try discriminate Hc; contradiction.
Qed.

Lemma Math_min_below (a b : number) : num_lt a b = true -> Math_min a b = a.
Proof.
  unfold num_lt, SFltb, Math_min.
  destruct (SFcompare a b) as [[]|]; try discriminate. reflexivity.
Qed.

Lemma nonneg_not_NaN (x : number) : nonneg_number x -> x <> NaN.
Proof. destruct x; try contradiction; discriminate. Qed.

Lemma positive_bound_nonneg (x : number) :
  positive_bound x -> nonneg_number x.
Proof. destruct x as [|[]| |[]]; try contradiction; exact (fun _ => I). Qed.

Lemma positive_finite_nonneg (x : number) :
  positive_finite x -> nonneg_number x.
Proof. destruct x as [| | |[]]; try contradiction; exact (fun _ => I). Qed.

Lemma Math_min_nonneg (a b : number) :
  nonneg_number a -> nonneg_number b -> nonneg_number (Math_min a b).
Proof.
  intros Ha Hb.
  destruct (Math_min_cases a b (nonneg_not_NaN a Ha) (nonneg_not_NaN b Hb))
    as [->| ->]; assumption.
Qed.

Lemma mul_positive_nonneg (a b : number) :
  positive_finite a -> nonneg_number b -> nonneg_number (mul a b).
Proof.
  destruct a as [| | |[] ma ea]; try contradiction.
  destruct b as [[]|[]| |[] mb eb]; try contradiction; intros _ _;
    try exact I.
  unfold mul, SFmul. cbn [xorb]. apply binary_round_aux_nonneg. lia.
Qed.

Lemma div_positive_nonneg (a b : number) :
  positive_finite a -> nonneg_number b -> nonneg_number (div a b).
Proof.
  intros Ha Hb.
  destruct b as [[]|[]| |[] mb eb] eqn:Eb; try contradiction.
  - destruct a as [| | |[] ma ea]; try contradiction. exact I.
  - destruct a as [| | |[] ma ea]; try contradiction. exact I.
  - apply div_positive_finite; [exact Ha|exact I].
Qed.

(** ** Multiplying by one *)

Lemma shr_fexp_times_2_52 (m : positive) (e : Z) :
  fexp prec emax (Z.pos (digits2_pos m) + e) = e ->
  shr_fexp prec emax (Z.pos (4503599627370496 * m)) (-52 + e) loc_Exact
  = ({| shr_m := Z.pos m; shr_r := false; shr_s := false |}, e).
Proof.
  intros Hc. unfold shr_fexp.
  assert (Hd : Zdigits2 (Z.pos (4503599627370496 * m)) + (-52 + e)
               = Z.pos (digits2_pos m) + e).
  { cbn [Zdigits2 Pos.mul digits2_pos]. lia. }
  rewrite Hd, Hc.
  replace (e - (-52 + e)) with 52 by lia.
  unfold shr. replace (-52 + e + 52) with e by lia. reflexivity.
Qed.

Lemma shr_fexp_canonical (m : positive) (e : Z) :
  fexp prec emax (Z.pos (digits2_pos m) + e) = e ->
  shr_fexp prec emax (Z.pos m) e loc_Exact
  = ({| shr_m := Z.pos m; shr_r := false; shr_s := false |}, e).
Proof.
  intros Hc. unfold shr_fexp. cbn [Zdigits2]. rewrite Hc, Z.sub_diag.
  reflexivity.
Qed.

Lemma mul_one_l (y : number) : valid y -> mul (of_Z 1) y = y.
Proof.
  destruct y as [s|s| |s m e]; intros Hv; try reflexivity.
  unfold valid, valid_binary, bounded, canonical_mantissa in Hv.
  apply andb_prop in Hv. destruct Hv as [Hc Hb].
  apply Z.eqb_eq in Hc.
  change (of_Z 1) with (S754_finite false 4503599627370496 (-52)).
  unfold mul, SFmul. cbn [xorb].
  unfold binary_round_aux.
  rewrite (shr_fexp_times_2_52 m e Hc).
  cbn [shr_m loc_of_shr_record round_nearest_even].
  rewrite (shr_fexp_canonical m e Hc). cbn [shr_m].
  rewrite Hb. reflexivity.
Qed.

Lemma mul_one_r (y : number) : valid y -> mul y (of_Z 1) = y.
Proof.
  destruct y as [[]|[]| |s m e]; intros Hv; try reflexivity.
  rewrite <- (mul_one_l (S754_finite s m e) Hv) at 2.
  change (of_Z 1) with (S754_finite false 4503599627370496 (-52)).
  unfold mul, SFmul.
  rewrite Pos.mul_comm, Z.add_comm, xorb_comm. reflexivity.
Qed.

(** ** Signs through the arithmetic of the policies *)

Lemma nonneg_not_negative (x : number) : nonneg_number x -> not_negative x.
Proof. destruct x as [[]|[]| |[]]; try contradiction; exact (fun _ => I). Qed.

Lemma binary_round_nonneg (m : positive) (e : Z) :
  nonneg_number (binary_round prec emax false m e).
Proof.
  unfold binary_round.
  destruct (shl_align m e _) as [mz ez].
  apply binary_round_aux_nonneg. lia.
Qed.

Lemma of_Z_nonneg (z : Z) : 0 <= z -> nonneg_number (of_Z z).
Proof.
  destruct z as [|q|q]; intros H; [exact I| |lia].
  apply binary_round_nonneg.
Qed.

Lemma Math_floor_nonneg (x : number) :
  positive_finite x -> nonneg_number (Math_floor x).
Proof.
  destruct x as [| | |[] m e]; try contradiction. intros _.
  destruct e as [|e|e]; try exact I.
  unfold Math_floor, trunc_mag.
  apply of_Z_nonneg, Z.shiftr_nonneg. lia.
Qed.

Lemma div_nonneg_positive (a b : number) :
  nonneg_number a -> positive_finite b -> nonneg_number (div a b).
Proof.
  destruct b as [| | |[] mb eb]; try contradiction.
  destruct a as [[]|[]| |[] ma ea]; try contradiction; intros _ _;
    try exact I.
  apply div_positive_finite; exact I.
Qed.

Lemma div_not_negative (a b : number) :
  not_negative a -> not_negative b -> not_negative (div a b).
Proof.
  destruct a as [[]|[]| |[] ma ea]; try contradiction;
    destruct b as [[]|[]| |[] mb eb]; try contradiction;
    intros _ _; try exact I.
  apply nonneg_not_negative, div_positive_finite; exact I.
Qed.

Lemma mul_not_negative (a b : number) :
  not_negative a -> not_negative b -> not_negative (mul a b).
Proof.
  destruct a as [[]|[]| |[] ma ea]; try contradiction;
    destruct b as [[]|[]| |[] mb eb]; try contradiction;
    intros _ _; try exact I.
  apply nonneg_not_negative, mul_positive_nonneg; exact I.
Qed.

Lemma Math_min_not_negative (a b : number) :
  not_negative a -> not_negative b -> not_negative (Math_min a b).
Proof.
  intros Ha Hb. unfold Math_min.
  destruct (SFcompare a b) as [[]|]; try assumption; [|exact I].
  destruct a as [[]| | |]; assumption.
Qed.

Lemma add_half_not_negative (x : number) :
  not_negative x -> not_negative (add x half).
Proof.
  destruct x as [[]|[]| |[] m e]; try contradiction; intros _; try exact I.
  apply nonneg_not_negative.
  change half with (S754_finite false 4503599627370496 (-53)).
  unfold add, SFadd, binary_normalize. cbn [cond_Zopp].
  cbn [Z.add]. apply binary_round_nonneg.
Qed.

(** ** [~~(x + 0.5)] as rounding half up *)

Lemma digits2_pos_lower (m : positive) :
  2 ^ (Z.pos (digits2_pos m) - 1) <= Z.pos m.
Proof.
  induction m as [m IH|m IH|]; cbn [digits2_pos].
  - rewrite Pos2Z.inj_succ.
    replace (Z.succ (Z.pos (digits2_pos m)) - 1)
      with (Z.succ (Z.pos (digits2_pos m) - 1)) by lia.
    rewrite Z.pow_succ_r by lia. lia.
  - rewrite Pos2Z.inj_succ.
    replace (Z.succ (Z.pos (digits2_pos m)) - 1)
      with (Z.succ (Z.pos (digits2_pos m) - 1)) by lia.
    rewrite Z.pow_succ_r by lia. lia.
  - cbn. lia.
Qed.

(** A well-formed number without fractional digits is at least 2^52. *)
Lemma valid_integer_is_large (s : bool) (m : positive) (e : Z) :
  valid (S754_finite s m e) -> 0 <= e -> 2 ^ 52 <= Z.pos m.
Proof.
  unfold valid, valid_binary, bounded, canonical_mantissa.
  intros Hv He. apply andb_prop in Hv. destruct Hv as [Hc _].
  apply Z.eqb_eq in Hc. unfold fexp, SpecFloat.emin, prec, emax in Hc.
  assert (Hd : Z.pos (digits2_pos m) = 53) by lia.
  pose proof (digits2_pos_lower m) as Hl. rewrite Hd in Hl.
  exact Hl.
Qed.

(** On a number that is not negative and below 2^31, [~~] is
    [Math.floor]. *)
Lemma double_tilde_floor (y : number) :
  not_negative y -> valid y -> below_2_31 y ->
  double_tilde y = Math_floor y.
Proof.
  destruct y as [[]|[]| |[] m e]; try contradiction; intros _ Hv Hb;
    [reflexivity|].
  cbn [below_2_31] in Hb.
  destruct e as [|e|e].
  - pose proof (valid_integer_is_large _ _ _ Hv (Z.le_refl 0)) as Hl.
    cbn [trunc_mag fst] in Hb. rewrite Z.shiftl_0_r in Hb. lia.
  - assert (He : 0 <= Z.pos e) by lia.
    pose proof (valid_integer_is_large _ _ _ Hv He) as Hl.
    cbn [trunc_mag fst] in Hb. rewrite Z.shiftl_mul_pow2 in Hb by lia.
    assert (1 <= 2 ^ Z.pos e)
      by (apply Z.pow_le_mono_r with (b := 0) (a := 2) in He; lia).
    nia.
  - unfold double_tilde, ToInt32, Math_floor.
    destruct (trunc_mag m (Z.neg e)) as [q exact] eqn:Hq.
    cbn [fst] in *.
    assert (H0 : 0 <= q).
    { unfold trunc_mag in Hq. injection Hq as <- _.
      apply Z.shiftr_nonneg. lia. }
    rewrite Z.mod_small by lia.
    replace (q >=? 2 ^ 31) with false; [reflexivity|].
    symmetry. rewrite Z.geb_leb. apply Z.leb_gt. exact Hb.
Qed.

(** ** The width-filling branch (fill-min above the design ratio,
       flex-width) *)

(** C1, as amended: under fill-min with the screen ratio above the design
    ratio, or under flex-width, the policy takes
    [sWidth = min(maxWidth, designHeight * screenRatio)], sets both scale
    factors to [_max_width / sWidth] (the width before rounding, with
    [_max_width = floor(min(maxWidth, container width))]), and asks for the
    surface [(~~(sWidth + 0.5), designHeight)]; for a positive design
    height, bounds and clamped container size that is [sWidth] rounded
    half up whenever [sWidth + 0.5] is below 2^31; with autoscaling on,
    it is the canvas size once [onresize] is over. *)
Theorem fill_width_policy (v : Video) (h : Host) :
  (scaleMethod (settings v) = "fill-min"%string
   /\ num_gt (screenRatio v h) (designRatio v) = true)
  \/ scaleMethod (settings v) = "flex-width"%string ->
  let sWidth :=
    Math_min (maxWidth v) (mul (designHeight v) (screenRatio v h)) in
  let s := div (Math_floor (clampedW v h)) sWidth in
  policy v h
  = {| scaleX := s; scaleY := s;
       surface := Some (double_tilde (add sWidth half), designHeight v) |}
  /\ (positive_finite (designHeight v) ->
      positive_bound (maxWidth v) ->
      positive_finite (clampedW v h) -> positive_finite (clampedH v h) ->
      valid (add sWidth half) -> below_2_31 (add sWidth half) ->
      surface (policy v h) = Some (round_half_up sWidth, designHeight v))
  /\ (autoScale (settings v) = true ->
      forall force,
        width (canvas (renderer (onresize force h v)))
        = double_tilde (add sWidth half)
        /\ height (canvas (renderer (onresize force h v)))
           = designHeight v).
Proof.
  intros Hcase sWidth s.
  assert (Hp : policy v h
               = {| scaleX := s; scaleY := s;
                    surface := Some (double_tilde (add sWidth half),
                                     designHeight v) |}).
  { unfold policy.
    destruct Hcase as [[Hm Hgt]|Hm]; rewrite Hm; [rewrite Hgt|];
      reflexivity. }
  split; [exact Hp|]. split.
  - intros HdH Hmax HcW HcH Hvalid Hbelow. rewrite Hp. cbn [surface].
    unfold round_half_up.
    rewrite (double_tilde_floor (add sWidth half)); [reflexivity| | |];
      [|exact Hvalid|exact Hbelow].
    apply add_half_not_negative, Math_min_not_negative.
    + apply nonneg_not_negative, positive_bound_nonneg, Hmax.
    + apply mul_not_negative.
      * apply nonneg_not_negative, positive_finite_nonneg, HdH.
      * change (screenRatio v h)
          with (div (Math_floor (clampedW v h)) (Math_floor (clampedH v h))).
        apply div_not_negative;
          apply nonneg_not_negative, Math_floor_nonneg; assumption.
  - intros Hauto force.
    apply onresize_surface; [exact Hauto|].
    rewrite Hp. reflexivity.
Qed.

Lemma fill_width_policy_witness :
  let v := with_max (of_Z 4000) (of_Z 4000) (video_800x600 "fill-min") in
  let h := window_host 1000 700 in
  scaleX (policy v h) = div (of_Z 1000) (mul (of_Z 600) (screenRatio v h))
  /\ surface (policy v h) = Some (of_Z 857, of_Z 600).
Proof.
  intros v h.
  assert (Hcase : (scaleMethod (settings v) = "fill-min"%string
                   /\ num_gt (screenRatio v h) (designRatio v) = true)
                  \/ scaleMethod (settings v) = "flex-width"%string)
    by (left; split; vm_compute; reflexivity).
  destruct (fill_width_policy v h Hcase) as (Hp & Hround & _).
  split.
  - rewrite Hp. vm_compute. reflexivity.
  - rewrite (Hround I I I I); vm_compute; reflexivity.
Defined.

(** C1 as worded fails: with an 800x600 design under fill-min and
    bounds of 4000x4000, a 1000x700 container gives the scale
    [1000/857.142...], not [1000/857]; a 1200x300 container gives the
    surface 2400x600 and the scale 0.5, not 1200x600 and 1; and under
    flex-width a container 1000.5 wide is floored to 1000 before it is
    divided. *)
Lemma fill_width_claim_fails :
  (let v := with_max (of_Z 4000) (of_Z 4000) (video_800x600 "fill-min") in
   let h := window_host 1000 700 in
   num_gt (div (clampedW v h) (clampedH v h)) (designRatio v) = true
   /\ surface (policy v h) = Some (of_Z 857, of_Z 600)
   /\ spec_fill_width v h = of_Z 857
   /\ scaleX (policy v h) <> spec_fill_scale v h)
  /\ (let v := with_max (of_Z 4000) (of_Z 4000)
                 (video_800x600 "fill-min") in
      let h := window_host 1200 300 in
      num_gt (div (clampedW v h) (clampedH v h)) (designRatio v) = true
      /\ surface (policy v h) = Some (of_Z 2400, of_Z 600)
      /\ spec_fill_width v h = of_Z 1200
      /\ scaleX (policy v h) = half
      /\ spec_fill_scale v h = of_Z 1)
  /\ (let v := with_max (of_Z 4000) (of_Z 4000)
                 (video_800x600 "flex-width") in
      let h := {| innerWidth := div (of_Z 2001) (of_Z 2);
                  innerHeight := of_Z 600;
                  devicePixelRatio := of_Z 1; parentNode := None |} in
      scaleX (policy v h) = of_Z 1
      /\ spec_fill_scale v h <> of_Z 1).
Proof.
  repeat split; try (vm_compute; reflexivity);
    vm_compute; intro H; discriminate H.
Qed.

(** ** The fit policy *)

(** C2 as worded fails: with an 800x600 design under fit, a container
    1000.5 wide and 2000 high gives the factor 1000/800 = 1.25, the
    clamped width being floored, not 1000.5/800. *)
Lemma fit_claim_fails :
  let v := video_800x600 "fit" in
  let h := {| innerWidth := div (of_Z 2001) (of_Z 2);
              innerHeight := of_Z 2000;
              devicePixelRatio := of_Z 1; parentNode := None |} in
  clampedW v h = div (of_Z 2001) (of_Z 2)
  /\ num_lt (div (clampedW v h) (clampedH v h)) (designRatio v) = true
  /\ adjusted v h = (div (of_Z 5) (of_Z 4), div (of_Z 5) (of_Z 4))
  /\ spec_fit_scale v h = div (of_Z 2001) (of_Z 1600)
  /\ fst (adjusted v h) <> spec_fit_scale v h.
Proof.
  repeat split; try (vm_compute; reflexivity).
  vm_compute. intro H. discriminate H.
Qed.

(** C2, as amended: under the fit policy with a positive design size, a
    positive clamped container size and a positive pixel ratio, both
    factors handed to [scale] are the same number ([===] holds between
    them): with [w = floor(clampedW)] and [ht = floor(clampedH)], it is
    [w / designWidth] when [w / ht] is below the design ratio and
    [ht / designHeight] otherwise, multiplied by the device pixel ratio;
    the canvas is not resized. *)
Theorem fit_policy_uniform (v : Video) (h : Host) :
  scaleMethod (settings v) = "fit"%string ->
  positive_finite (designWidth v) -> positive_finite (designHeight v) ->
  positive_finite (clampedW v h) -> positive_finite (clampedH v h) ->
  positive_finite (devicePixelRatio h) ->
  let w := Math_floor (clampedW v h) in
  let ht := Math_floor (clampedH v h) in
  let s := if num_lt (div w ht) (designRatio v)
           then div w (designWidth v)
           else div ht (designHeight v) in
  adjusted v h = (mul s (devicePixelRatio h), mul s (devicePixelRatio h))
  /\ strict_eq (fst (adjusted v h)) (snd (adjusted v h)) = true
  /\ surface (policy v h) = None.
Proof.
  intros Hm HdW HdH HcW HcH Hdpr w ht s.
  assert (Hp : policy v h = {| scaleX := s; scaleY := s; surface := None |}).
  { unfold policy. rewrite Hm.
    cbn [String.eqb Ascii.eqb Bool.eqb andb orb].
    change (screenRatio v h) with (div w ht).
    change (_max_width v h) with w. change (_max_height v h) with ht.
    subst s. destruct (num_lt (div w ht) (designRatio v)); reflexivity. }
  unfold adjusted. rewrite Hp. cbn [scaleX scaleY surface fst snd].
  split; [reflexivity|]. split; [|reflexivity].
  apply strict_eq_refl, mul_nonneg_positive; [|exact Hdpr].
  subst s. destruct (num_lt (div w ht) (designRatio v));
    apply div_nonneg_positive; try assumption;
    apply Math_floor_nonneg; assumption.
Qed.

Lemma fit_policy_uniform_witness :
  let v := video_800x600 "fit" in
  let h := {| innerWidth := div (of_Z 2001) (of_Z 2);
              innerHeight := of_Z 2000;
              devicePixelRatio := of_Z 1; parentNode := None |} in
  adjusted v h = (div (of_Z 5) (of_Z 4), div (of_Z 5) (of_Z 4)).
Proof.
  intros v h.
  rewrite (proj1 (fit_policy_uniform v h eq_refl I I I I I)).
  vm_compute. reflexivity.
Defined.

(** ** Deferred resizes *)

Lemma filter_swap {A : Type} (f g : A -> bool) (l : list A) :
  filter f (filter g l) = filter g (filter f l).
Proof.
  induction l as [|a l IH]; [reflexivity|].
  cbn [filter].
  destruct (f a) eqn:Hf, (g a) eqn:Hg; cbn [filter];
    rewrite ?Hf, ?Hg, IH; reflexivity.
Qed.

Lemma filter_fresh (id : Z) (l : list (Z * Task)) :
  (forall p, In p l -> fst p < id) ->
  filter (fun p => negb (fst p =? id)) l = l.
Proof.
  induction l as [|a l IH]; intros H; [reflexivity|].
  cbn [filter].
  assert (Ha : fst a < id) by (apply H; left; reflexivity).
  replace (fst a =? id) with false by (symmetry; apply Z.eqb_neq; lia).
  cbn [negb]. rewrite IH; [reflexivity|].
  intros p Hp. apply H. right. exact Hp.
Qed.

Lemma find_fresh (id : Z) (l : list (Z * Task)) :
  (forall p, In p l -> fst p < id) ->
  find (fun p => fst p =? id) l = None.
Proof.
  induction l as [|a l IH]; intros H; [reflexivity|].
  cbn [find].
  assert (Ha : fst a < id) by (apply H; left; reflexivity).
  replace (fst a =? id) with false by (symmetry; apply Z.eqb_neq; lia).
  apply IH. intros p Hp. apply H. right. exact Hp.
Qed.

Lemma find_app_fresh (id : Z) (t : Task) (l : list (Z * Task)) :
  (forall p, In p l -> fst p < id) ->
  find (fun p => fst p =? id) (l ++ [(id, t)]) = Some (id, t).
Proof.
  induction l as [|a l IH]; intros H.
  - cbn [app find fst]. rewrite Z.eqb_refl. reflexivity.
  - cbn [app find].
    assert (Ha : fst a < id) by (apply H; left; reflexivity).
    replace (fst a =? id) with false by (symmetry; apply Z.eqb_neq; lia).
    apply IH. intros p Hp. apply H. right. exact Hp.
Qed.

(** Clearing a handle keeps the queue fresh and removes that handle from
    the deferred applications. *)
Lemma clearTimeout_fresh (id : Z) (q : Timers) :
  handles_fresh q -> handles_fresh (clearTimeout id q).
Proof.
  intros [Hpos Hlt]. split; [exact Hpos|].
  intros p Hp. apply Hlt.
  unfold clearTimeout in Hp. cbn [pending] in Hp.
  apply filter_In in Hp. apply Hp.
Qed.

Lemma defer_fresh (t : Task) (q : Timers) :
  handles_fresh q -> handles_fresh (snd (defer t q)).
Proof.
  intros [Hpos Hlt]. unfold defer. cbn [snd].
  split; cbn [next_handle pending]; [lia|].
  intros p Hp. apply in_app_or in Hp. destruct Hp as [Hp|[Hp|[]]].
  - apply Hlt in Hp. lia.
  - subst p. cbn [fst]. lia.
Qed.

Lemma clear_own_pending (v : Video) :
  at_most_one_pending v ->
  0 < deferResizeId v ->
  filter is_scale_task
    (pending (clearTimeout (deferResizeId v) (timers v))) = [].
Proof.
  intros Hone Hpos. unfold clearTimeout. cbn [pending].
  rewrite filter_swap. fold (pending_scales v).
  destruct Hone as [Hnil|[_ (x & y & Hone)]]; [rewrite Hnil; reflexivity|].
  rewrite Hone. cbn [filter fst]. rewrite Z.eqb_refl. reflexivity.
Qed.

Lemma clear_other_pending (id : Z) (v : Video) :
  at_most_one_pending v ->
  at_most_one_pending (with_timers (clearTimeout id (timers v)) v).
Proof.
  intros Hone. unfold at_most_one_pending, pending_scales in *.
  cbn [timers with_timers deferResizeId clearTimeout pending].
  rewrite filter_swap.
  destruct Hone as [Hnil|[Hpos (x & y & Hone)]].
  - left. rewrite Hnil. reflexivity.
  - rewrite Hone. cbn [filter fst].
    destruct (deferResizeId v =? id); cbn [negb]; [left; reflexivity|].
    right. split; [exact Hpos|]. exists x, y. reflexivity.
Qed.

Lemma after_cancel_fresh (v : Video) :
  handles_fresh (timers v) -> handles_fresh (after_cancel v).
Proof.
  intros H. unfold after_cancel.
  destruct (deferResizeId v >? 0); [apply clearTimeout_fresh|]; exact H.
Qed.

Lemma after_cancel_next (v : Video) :
  next_handle (after_cancel v) = next_handle (timers v).
Proof.
  unfold after_cancel. destruct (deferResizeId v >? 0); reflexivity.
Qed.

Lemma after_cancel_scales (v : Video) :
  at_most_one_pending v ->
  filter is_scale_task (pending (after_cancel v)) = [].
Proof.
  intros Hone. unfold after_cancel.
  destruct (deferResizeId v >? 0) eqn:Hid.
  - apply clear_own_pending; [exact Hone|].
    rewrite Z.gtb_ltb in Hid. apply Z.ltb_lt in Hid. exact Hid.
  - destruct Hone as [Hnil|[Hpos _]]; [exact Hnil|].
    rewrite Z.gtb_ltb in Hid. apply Z.ltb_ge in Hid. lia.
Qed.

(** What [onresize] leaves untouched. *)
Lemma onresize_frame (force : jsval) (h : Host) (v : Video) :
  settings (onresize force h v) = settings v
  /\ designRatio (onresize force h v) = designRatio v
  /\ designWidth (onresize force h v) = designWidth v
  /\ designHeight (onresize force h v) = designHeight v
  /\ maxWidth (onresize force h v) = maxWidth v
  /\ maxHeight (onresize force h v) = maxHeight v.
Proof.
  destruct (prepared_frame v h) as (Hs & Hr & Hw & Hh & Hmw & Hmh & _).
  destruct (autoScale (settings v)) eqn:Hauto.
  - destruct (force_cases force) as [->|Hforce].
    + rewrite (onresize_applies h v Hauto). cbv zeta.
      destruct (invalid_vector _ _) eqn:Hinv;
        [repeat split; assumption|].
      unfold scale. rewrite Hinv.
      cbn [settings designRatio designWidth designHeight maxWidth
           maxHeight with_renderer with_deferResizeId with_repaint
           with_sys_scale].
      repeat split; assumption.
    + rewrite (onresize_defers force h v Hauto Hforce). cbv zeta.
      cbn [settings designRatio designWidth designHeight maxWidth
           maxHeight with_renderer with_deferResizeId with_timers].
      repeat split; assumption.
  - rewrite (onresize_off force h v Hauto). repeat split; reflexivity.
Qed.

Lemma policy_frame (v v' : Video) (h : Host) :
  settings v' = settings v ->
  designRatio v' = designRatio v ->
  designWidth v' = designWidth v ->
  designHeight v' = designHeight v ->
  maxWidth v' = maxWidth v ->
  maxHeight v' = maxHeight v ->
  policy v' h = policy v h /\ adjusted v' h = adjusted v h.
Proof.
  intros Hs Hr Hw Hh Hmw Hmh.
  assert (Hp : policy v' h = policy v h).
  { unfold policy, screenRatio, _max_width, _max_height.
    rewrite Hs, Hr, Hw, Hh, Hmw, Hmh. reflexivity. }
  split; [exact Hp|]. unfold adjusted. rewrite Hp. reflexivity.
Qed.

Lemma prepared_timers (v : Video) (h : Host) :
  timers (prepared v h) = after_cancel v.
Proof.
  unfold prepared, after_cancel.
  destruct (surface (policy v h)) as [[w ht]|];
    cbn [deferResizeId with_renderer timers];
    destruct (deferResizeId v >? 0); reflexivity.
Qed.

(** A request that is not forced: the previous application is cancelled
    and the computed factors are deferred under a new handle. *)
Lemma onresize_deferred (force : jsval) (h : Host) (v : Video) :
  autoScale (settings v) = true ->
  not_strictly_true force = true ->
  pending (timers (onresize force h v))
  = pending (after_cancel v)
    ++ [(next_handle (timers v),
         TaskScale (fst (adjusted v h)) (snd (adjusted v h)))]
  /\ next_handle (timers (onresize force h v)) = next_handle (timers v) + 1
  /\ deferResizeId (onresize force h v) = next_handle (timers v)
  /\ sys_scale (onresize force h v) = sys_scale v
  /\ repaints (onresize force h v) = repaints v.
Proof.
  intros Hauto Hforce.
  rewrite (onresize_defers force h v Hauto Hforce). cbv zeta.
  destruct (prepared_frame v h) as (_ & _ & _ & _ & _ & _ & _ & Hs & Hr).
  cbn [timers deferResizeId sys_scale repaints with_renderer
       with_deferResizeId with_timers defer snd pending next_handle].
  rewrite (prepared_timers v h), after_cancel_next.
  repeat split; assumption.
Qed.

(** A forced request: the previous application is cancelled, and the
    computed factors are applied at once unless one of them is NaN. *)
Lemma onresize_forced (h : Host) (v : Video) :
  autoScale (settings v) = true ->
  timers (onresize (VBool true) h v) = after_cancel v
  /\ (invalid_vector (fst (adjusted v h)) (snd (adjusted v h)) = false ->
      deferResizeId (onresize (VBool true) h v) = -1
      /\ repaints (onresize (VBool true) h v) = S (repaints v))
  /\ (invalid_vector (fst (adjusted v h)) (snd (adjusted v h)) = true ->
      deferResizeId (onresize (VBool true) h v) = deferResizeId v
      /\ repaints (onresize (VBool true) h v) = repaints v
      /\ sys_scale (onresize (VBool true) h v) = sys_scale v).
Proof.
  intros Hauto. rewrite (onresize_applies h v Hauto). cbv zeta.
  destruct (prepared_frame v h) as (_ & _ & _ & _ & _ & _ & Hid & Hs & Hr).
  destruct (invalid_vector _ _) eqn:Hinv.
  - split; [apply prepared_timers|].
    split; [discriminate|]. intros _. repeat split; assumption.
  - unfold scale. rewrite Hinv.
    cbn [timers deferResizeId repaints with_renderer with_deferResizeId
         with_repaint with_sys_scale].
    split; [apply prepared_timers|].
    split; [|discriminate]. intros _. rewrite Hr. split; reflexivity.
Qed.

Lemma onresize_disabled (force : jsval) (h : Host) (v : Video) :
  autoScale (settings v) = false ->
  timers (onresize force h v) = timers v
  /\ deferResizeId (onresize force h v) = deferResizeId v
  /\ sys_scale (onresize force h v) = sys_scale v.
Proof.
  intros Hauto. rewrite (onresize_off force h v Hauto).
  repeat split; reflexivity.
Qed.

Lemma onresize_coordinated (force : jsval) (h : Host) (v : Video) :
  coordinated v -> coordinated (onresize force h v).
Proof.
  intros [Hfresh Hone].
  destruct (autoScale (settings v)) eqn:Hauto.
  - destruct (force_cases force) as [->|Hforce].
    + destruct (onresize_forced h v Hauto) as (Ht & _).
      split.
      * rewrite Ht. apply after_cancel_fresh, Hfresh.
      * left. unfold pending_scales. rewrite Ht.
        apply after_cancel_scales, Hone.
    + destruct (onresize_deferred force h v Hauto Hforce)
        as (Hp & Hn & Hid & _).
      pose proof (after_cancel_fresh v Hfresh) as [Hpos Hlt].
      rewrite after_cancel_next in Hpos, Hlt.
      split.
      * split; [rewrite Hn; lia|].
        intros p Hin. rewrite Hp in Hin. rewrite Hn.
        apply in_app_or in Hin. destruct Hin as [Hin|[Hin|[]]].
        -- apply Hlt in Hin. lia.
        -- subst p. cbn [fst]. lia.
      * right. rewrite Hid. split; [exact Hpos|].
        exists (fst (adjusted v h)), (snd (adjusted v h)).
        unfold pending_scales. rewrite Hp, filter_app.
        rewrite (after_cancel_scales v Hone). reflexivity.
  - destruct (onresize_disabled force h v Hauto) as (Ht & Hid & _).
    split; [rewrite Ht; exact Hfresh|].
    unfold at_most_one_pending, pending_scales in *.
    rewrite Ht, Hid. exact Hone.
Qed.

Lemma setMaxSize_coordinated (w ht : option number) (v : Video) :
  coordinated v -> coordinated (setMaxSize w ht v).
Proof.
  intros [Hfresh Hone]. unfold setMaxSize. split.
  - cbn [timers with_timers with_max]. apply defer_fresh, Hfresh.
  - unfold at_most_one_pending, pending_scales in *.
    cbn [timers with_timers with_max deferResizeId defer snd pending].
    rewrite filter_app. cbn [filter is_scale_task snd].
    rewrite app_nil_r. exact Hone.
Qed.

Lemma scale_bookkeeping (x y : number) (h : Host) (v : Video) :
  timers (scale x y h v) = timers v
  /\ (invalid_vector x y = false ->
      deferResizeId (scale x y h v) = -1
      /\ repaints (scale x y h v) = S (repaints v)).
Proof.
  unfold scale. destruct (invalid_vector x y).
  - split; [reflexivity|discriminate].
  - repeat split; reflexivity.
Qed.

Lemma fire_coordinated (id : Z) (h : Host) (v : Video) :
  coordinated v -> coordinated (fire id h v).
Proof.
  intros Hco. unfold fire.
  destruct (find (fun p => fst p =? id) (pending (timers v)))
    as [[id' t]|] eqn:Hfind; [|exact Hco].
  apply find_some in Hfind. destruct Hfind as [Hin Hid].
  cbn [fst] in Hid. apply Z.eqb_eq in Hid. subst id'.
  destruct Hco as [Hfresh Hone].
  assert (Hco' : coordinated (with_timers (clearTimeout id (timers v)) v)).
  { split; [apply clearTimeout_fresh, Hfresh|].
    apply clear_other_pending, Hone. }
  destruct t as [x y|]; [|apply onresize_coordinated, Hco'].
  split;
    [rewrite (proj1 (scale_bookkeeping x y h _)); exact (proj1 Hco')|].
  left. unfold pending_scales.
  rewrite (proj1 (scale_bookkeeping x y h _)).
  cbn [timers with_timers clearTimeout pending].
  rewrite filter_swap. fold (pending_scales v).
  assert (Hin' : In (id, TaskScale x y) (pending_scales v))
    by (apply filter_In; split; [exact Hin|reflexivity]).
  destruct Hone as [Hnil|[_ (x' & y' & Hone)]].
  - rewrite Hnil in Hin'. destruct Hin'.
  - rewrite Hone in Hin' |- *. destruct Hin' as [Heq|[]].
    injection Heq as Heq _ _. rewrite Heq.
    cbn [filter fst]. rewrite Z.eqb_refl. reflexivity.
Qed.

Lemma run_coordinated (es : list Event) :
  forall v, coordinated v -> coordinated (run es v).
Proof.
  induction es as [|e es IH]; intros v Hco; [exact Hco|].
  cbn [run fold_left]. apply IH.
  destruct e as [force h|w ht|id h]; cbn [step].
  - apply onresize_coordinated, Hco.
  - apply setMaxSize_coordinated, Hco.
  - apply fire_coordinated, Hco.
Qed.

(** Initialization on a queue without deferred applications ends in a
    coordinated state. *)
Lemma init_coordinated (game_width game_height : number) (o : Options)
  (p : Platform) (h : Host) (q : Timers) (v : Video) :
  handles_fresh q ->
  filter is_scale_task (pending q) = [] ->
  init game_width game_height o p h q = ReturnTrue v ->
  coordinated v.
Proof.
  intros Hfresh Hnone. unfold init.
  destruct (negb (initialized p)); [discriminate|].
  destruct (snd (select_renderer p _)) as [r|e];
    [|cbn [call console]; discriminate].
  destruct (onresize_throws _ _ _); [discriminate|].
  intros Hv. injection Hv as <-.
  apply onresize_coordinated. unfold before_first_resize.
  destruct (computedMaxSize p) as [[w ht]|];
    [apply setMaxSize_coordinated|];
    (split; [exact Hfresh|left; exact Hnone]).
Qed.

Lemma find_cleared (id : Z) (l : list (Z * Task)) :
  find (fun p => fst p =? id) (filter (fun p => negb (fst p =? id)) l)
  = None.
Proof.
  induction l as [|a l IH]; [reflexivity|].
  cbn [filter]. destruct (fst a =? id) eqn:Ha; cbn [negb]; [exact IH|].
  cbn [find]. rewrite Ha. exact IH.
Qed.

Lemma find_app_none {A : Type} (f : A -> bool) (l l' : list A) :
  find f l = None -> find f (l ++ l') = find f l'.
Proof.
  induction l as [|a l IH]; intros H; [reflexivity|].
  cbn [app find] in *. destruct (f a); [discriminate H|apply IH, H].
Qed.

(** C3, as amended: from a coordinated state with autoscaling on, a
    request that is not forced leaves exactly its own application
    pending; a second such request before the first fires leaves exactly
    one application pending, carrying the factors computed at the second
    request; the first handle no longer fires; firing the second leaves
    nothing pending and, when both factors are numbers, applies them and
    repaints once, while a NaN factor makes the call throw and apply
    nothing.  Whatever container changes, bound changes and timer
    firings follow, at most one deferred application is ever pending. *)
Theorem last_request_wins (v : Video) (f1 f2 : jsval) (h1 h2 h3 : Host) :
  coordinated v ->
  autoScale (settings v) = true ->
  not_strictly_true f1 = true ->
  not_strictly_true f2 = true ->
  let v1 := onresize f1 h1 v in
  let v2 := onresize f2 h2 v1 in
  let id1 := next_handle (timers v) in
  let id2 := id1 + 1 in
  let sx := fst (adjusted v1 h2) in
  let sy := snd (adjusted v1 h2) in
  pending_scales v1
  = [(id1, TaskScale (fst (adjusted v h1)) (snd (adjusted v h1)))]
  /\ pending_scales v2 = [(id2, TaskScale sx sy)]
  /\ fire id1 h3 v2 = v2
  /\ pending_scales (fire id2 h3 v2) = []
  /\ (invalid_vector sx sy = false ->
      sys_scale (fire id2 h3 v2) = (sx, sy)
      /\ repaints (fire id2 h3 v2) = S (repaints v)
      /\ deferResizeId (fire id2 h3 v2) = -1)
  /\ (invalid_vector sx sy = true ->
      sys_scale (fire id2 h3 v2) = sys_scale v
      /\ repaints (fire id2 h3 v2) = repaints v)
  /\ forall es, (List.length (pending_scales (run es v)) <= 1)%nat.
Proof.
  intros Hco Hauto Hf1 Hf2 v1 v2 id1 id2 sx sy.
  pose proof (onresize_coordinated f1 h1 v Hco) as Hco1. fold v1 in Hco1.
  destruct (onresize_deferred f1 h1 v Hauto Hf1)
    as (Hp1 & Hn1 & Hid1 & Hs1 & Hr1).
  fold v1 id1 in Hp1, Hn1, Hid1, Hs1, Hr1.
  assert (Hauto1 : autoScale (settings v1) = true)
    by (unfold v1; rewrite (proj1 (onresize_frame f1 h1 v)); exact Hauto).
  destruct (onresize_deferred f2 h2 v1 Hauto1 Hf2)
    as (Hp2 & Hn2 & Hid2 & Hs2 & Hr2).
  fold v2 sx sy in Hp2, Hn2, Hid2, Hs2, Hr2.
  rewrite Hn1 in Hp2, Hn2, Hid2. fold id2 in Hp2, Hn2, Hid2.
  destruct Hco as [Hfresh Hone].
  assert (Hpos1 : 0 < id1) by apply Hfresh.
  assert (Hcancel : after_cancel v1 = clearTimeout id1 (timers v1)).
  { unfold after_cancel. rewrite Hid1.
    replace (id1 >? 0) with true; [reflexivity|].
    symmetry. rewrite Z.gtb_ltb. apply Z.ltb_lt. exact Hpos1. }
  assert (Hlt2 : forall p, In p (pending (after_cancel v1)) -> fst p < id2).
  { intros p Hp.
    destruct (after_cancel_fresh v1 (proj1 Hco1)) as [_ Hlt].
    rewrite after_cancel_next, Hn1 in Hlt. apply Hlt, Hp. }
  assert (Hfind2 : find (fun p => fst p =? id2) (pending (timers v2))
                   = Some (id2, TaskScale sx sy)).
  { rewrite Hp2. apply find_app_fresh, Hlt2. }
  split; [|split; [|split; [|split; [|split; [|split]]]]].
  - unfold pending_scales. rewrite Hp1, filter_app.
    rewrite (after_cancel_scales v Hone). reflexivity.
  - unfold pending_scales. rewrite Hp2, filter_app.
    rewrite (after_cancel_scales v1 (proj2 Hco1)). reflexivity.
  - unfold fire. rewrite Hp2, Hcancel.
    unfold clearTimeout at 1. cbn [pending].
    rewrite (find_app_none _ _ _ (find_cleared id1 _)). cbn [find fst].
    replace (id2 =? id1) with false; [reflexivity|].
    symmetry. apply Z.eqb_neq. unfold id2. lia.
  - unfold fire. rewrite Hfind2. unfold pending_scales.
    rewrite (proj1 (scale_bookkeeping sx sy h3 _)).
    cbn [timers with_timers clearTimeout pending].
    rewrite Hp2, filter_app, (filter_fresh id2 _ Hlt2).
    cbn [filter fst]. rewrite Z.eqb_refl. cbn [negb].
    rewrite app_nil_r. apply (after_cancel_scales v1 (proj2 Hco1)).
  - intros Hok. unfold fire. rewrite Hfind2.
    destruct (proj2 (scale_bookkeeping sx sy h3
                       (with_timers (clearTimeout id2 (timers v2)) v2)) Hok)
      as [Hd Hr].
    rewrite (scale_sys_scale _ _ _ _ Hok), Hd, Hr.
    cbn [repaints with_timers]. rewrite Hr2, Hr1. repeat split.
  - intros Hinv. unfold fire. rewrite Hfind2.
    rewrite (scale_invalid _ _ _ _ Hinv).
    cbn [sys_scale repaints with_timers].
    rewrite Hs2, Hs1, Hr2, Hr1. split; reflexivity.
  - intros es.
    destruct (run_coordinated es v (conj Hfresh Hone)) as [_ Hle].
    destruct Hle as [Hnil|[_ (x & y & Hle)]]; rewrite ?Hnil, ?Hle;
      cbn [List.length]; lia.
Qed.

Lemma last_request_wins_witness :
  let v := video_800x600 "fit" in
  let v2 := onresize VObj (window_host 1280 600)
              (onresize VUndef (window_host 1000 700) v) in
  pending_scales v2 = [(2, TaskScale (of_Z 1) (of_Z 1))]
  /\ fire 1 (window_host 1280 600) v2 = v2
  /\ sys_scale (fire 2 (window_host 1280 600) v2) = (of_Z 1, of_Z 1).
Proof.
  intros v v2.
  assert (Hco : coordinated v).
  { split; [split; [vm_compute; reflexivity|intros p []]|].
    left. reflexivity. }
  destruct (last_request_wins v VUndef VObj (window_host 1000 700)
              (window_host 1280 600) (window_host 1280 600)
              Hco eq_refl eq_refl eq_refl)
    as (_ & H2 & H3 & _ & H4 & _).
  split; [|split].
  - etransitivity; [exact H2|]. vm_compute. reflexivity.
  - exact H3.
  - etransitivity; [apply H4; vm_compute; reflexivity|].
    vm_compute. reflexivity.
Defined.

(** C3 as worded fails: under flex-width a second request against a 0x0
    container computes the factors (NaN, NaN); it is the one application
    left pending, and when it fires the call throws: the scale stays
    (1, 1) and no repaint is requested, so no scale application occurs. *)
Lemma last_request_claim_fails :
  let v := video_800x600 "flex-width" in
  let v2 := onresize VUndef (window_host 0 0)
              (onresize VUndef (window_host 1000 700) v) in
  let v3 := fire 2 (window_host 0 0) v2 in
  pending_scales v2 = [(2, TaskScale NaN NaN)]
  /\ scale_throws NaN NaN = true
  /\ sys_scale v3 = (of_Z 1, of_Z 1)
  /\ sys_scale v3 <> (NaN, NaN)
  /\ repaints v3 = 0%nat
  /\ pending_scales v3 = [].
Proof.
  repeat split; try (vm_compute; reflexivity).
  vm_compute. intro H. discriminate H.
Qed.

(** ** Degenerate geometry *)

(** C4 as worded fails: with the scale at (1, 1), a forced resize against
    a container of height zero under fit sets the scale to (0, 0); and
    against a 0x0 container under flex-width the factors are (NaN, NaN),
    the canvas is resized to width 0 and the call throws. *)
Lemma degenerate_geometry_claim_fails :
  (let v := video_800x600 "fit" in
   let h := window_host 1000 0 in
   _max_height v h = of_Z 0
   /\ sys_scale v = (of_Z 1, of_Z 1)
   /\ sys_scale (onresize (VBool true) h v) = (of_Z 0, of_Z 0)
   /\ sys_scale (onresize (VBool true) h v) <> sys_scale v)
  /\ (let v := video_800x600 "flex-width" in
      let h := window_host 0 0 in
      _max_width v h = of_Z 0
      /\ adjusted v h = (NaN, NaN)
      /\ onresize_throws (VBool true) h v = true
      /\ width (canvas (renderer v)) = of_Z 800
      /\ width (canvas (renderer (onresize (VBool true) h v))) = of_Z 0).
Proof.
  repeat split; try (vm_compute; reflexivity);
    vm_compute; intro H; discriminate H.
Qed.

(** C4, as amended: a zero axis is not guarded against in [onresize]; the
    factors are computed by the same formulas.  With autoscaling on, when
    both factors are numbers (zero and Infinity included) a forced resize
    replaces the global scale by them; when one is NaN the forced resize
    throws out of [me.sys.scale.set] and the previous scale is kept; a
    resize that is not forced defers the factors and does not throw.
    Under stretch a zero design width makes the horizontal factor plus or
    minus Infinity against a positive clamped width and NaN against a
    zero one (for a positive pixel ratio). *)
Theorem degenerate_geometry_unguarded (v : Video) (h : Host) :
  autoScale (settings v) = true ->
  (invalid_vector (fst (adjusted v h)) (snd (adjusted v h)) = false ->
   onresize_throws (VBool true) h v = false
   /\ sys_scale (onresize (VBool true) h v) = adjusted v h)
  /\ (invalid_vector (fst (adjusted v h)) (snd (adjusted v h)) = true ->
      onresize_throws (VBool true) h v = true
      /\ sys_scale (onresize (VBool true) h v) = sys_scale v)
  /\ (forall force, not_strictly_true force = true ->
      onresize_throws force h v = false
      /\ In (next_handle (timers v),
             TaskScale (fst (adjusted v h)) (snd (adjusted v h)))
            (pending (timers (onresize force h v))))
  /\ (scaleMethod (settings v) = "stretch"%string ->
      positive_finite (devicePixelRatio h) ->
      forall s, designWidth v = S754_zero s ->
        (positive_finite (_max_width v h) ->
         fst (adjusted v h) = S754_infinity s)
        /\ (forall s', _max_width v h = S754_zero s' ->
            fst (adjusted v h) = NaN)).
Proof.
  intros Hauto.
  assert (Hthrows : onresize_throws (VBool true) h v
                    = invalid_vector (fst (adjusted v h))
                                     (snd (adjusted v h)))
    by (unfold onresize_throws, scale_throws; rewrite Hauto; reflexivity).
  split; [|split; [|split]].
  - intros Hok. split; [rewrite Hthrows; exact Hok|].
    apply onresize_forced_sys_scale; assumption.
  - intros Hinv. split; [rewrite Hthrows; exact Hinv|].
    apply (onresize_forced h v Hauto), Hinv.
  - intros force Hforce. split.
    + unfold onresize_throws. rewrite Hauto, Hforce. reflexivity.
    + destruct (onresize_deferred force h v Hauto Hforce) as (Hp & _).
      rewrite Hp. apply in_or_app. right. left. reflexivity.
  - intros Hm Hdpr s Hzero.
    assert (Hx : fst (adjusted v h)
                 = mul (div (_max_width v h) (designWidth v))
                       (devicePixelRatio h)).
    { unfold adjusted, policy. rewrite Hm. reflexivity. }
    rewrite Hx, Hzero.
    destruct (devicePixelRatio h) as [| | |[] md ed]; try contradiction.
    split.
    + destruct (_max_width v h) as [| | |[] mw ew]; try contradiction.
      intros _. destruct s; reflexivity.
    + intros s' Hw. rewrite Hw. reflexivity.
Qed.

Lemma degenerate_geometry_unguarded_witness :
  let v := video_800x600 "fit" in
  let h := window_host 1000 0 in
  sys_scale (onresize (VBool true) h v) = (of_Z 0, of_Z 0).
Proof.
  intros v h.
  rewrite (proj2 (proj1 (degenerate_geometry_unguarded v h eq_refl)
                    eq_refl)).
  vm_compute. reflexivity.
Defined.

(** ** Backend selection and initialization *)

(** The renderer setting that reaches the selection is the caller's,
    unless the URL fragment asks for WebGL. *)
Lemma sanitize_renderer (game_width game_height : number) (o : Options)
  (p : Platform) :
  settings_renderer (sanitize game_width game_height o p)
  = if uri_webgl p || uri_webgl1 p || uri_webgl2 p then WEBGL
    else option_renderer o.
Proof. reflexivity. Qed.

Lemma constructed_le_1 (p : Platform) (s : Settings) :
  (constructed (fst (select_renderer p s)) <= 1)%nat.
Proof.
  unfold select_renderer, autoDetectRenderer, tryWebGL, construct_canvas.
  destruct ((settings_renderer s =? AUTO) || (settings_renderer s =? WEBGL));
    [destruct (isWebGLSupported p s) as [[]|];
       [destruct (newWebGLRenderer p s)|..]|];
    destruct (newCanvasRenderer p s); cbn; lia.
Qed.

(** C6: when the probe reports no support the WebGL constructor is not
    called and the result is the canvas renderer; when the WebGL
    constructor throws the canvas renderer is constructed as fallback;
    when the renderer setting is neither AUTO nor WEBGL (the canvas
    renderer was asked for) only the canvas constructor is called; and
    every call that returns has constructed exactly one renderer. *)
Theorem backend_selection (p : Platform) (s : Settings) (cv : Renderer) :
  newCanvasRenderer p s = Some cv ->
  (isWebGLSupported p s = Some false ->
   autoDetectRenderer p s = ([TryCanvas true], Returned cv)
   /\ attempted_webgl (fst (autoDetectRenderer p s)) = false)
  /\ (isWebGLSupported p s = Some true ->
      newWebGLRenderer p s = None ->
      autoDetectRenderer p s
      = ([TryWebGL false; TryCanvas true], Returned cv))
  /\ (settings_renderer s <> AUTO -> settings_renderer s <> WEBGL ->
      select_renderer p s = ([TryCanvas true], Returned cv)
      /\ attempted_webgl (fst (select_renderer p s)) = false)
  /\ (exists r, snd (select_renderer p s) = Returned r)
  /\ constructed (fst (select_renderer p s)) = 1%nat.
Proof.
  intros Hcv.
  assert (Hcc : construct_canvas p s = ([TryCanvas true], Returned cv))
    by (unfold construct_canvas; rewrite Hcv; reflexivity).
  split; [|split; [|split]].
  - intros Hprobe. unfold autoDetectRenderer, tryWebGL.
    rewrite Hprobe, Hcc. split; reflexivity.
  - intros Hprobe Hgl. unfold autoDetectRenderer, tryWebGL.
    rewrite Hprobe, Hgl, Hcc. reflexivity.
  - intros Hauto Hwebgl. unfold select_renderer.
    apply Z.eqb_neq in Hauto, Hwebgl. rewrite Hauto, Hwebgl.
    cbn [orb]. rewrite Hcc. split; reflexivity.
  - unfold select_renderer, autoDetectRenderer, tryWebGL.
    rewrite Hcc.
    destruct ((settings_renderer s =? AUTO) || (settings_renderer s =? WEBGL));
      [|split; [exists cv|]; reflexivity].
    destruct (isWebGLSupported p s) as [[]|];
      [destruct (newWebGLRenderer p s) as [gl|];
         [split; [exists gl|]; reflexivity|]|..];
      (split; [exists cv|]; reflexivity).
Qed.

Lemma backend_selection_witness :
  let p := plain_platform false true in
  let s := plain_settings "fit" true in
  autoDetectRenderer p s
  = ([TryCanvas true], Returned (plain_renderer CanvasRenderer s)).
Proof.
  intros p s.
  exact (proj1 (proj1 (backend_selection p s
                         (plain_renderer CanvasRenderer s) eq_refl)
                  eq_refl)).
Defined.

(** C5, what the code does: once the engine is initialized, a failure to
    construct any renderer reaches the [catch] block, where calling
    [console] throws a TypeError; [init] never returns false. *)
Theorem init_backend_failure_throws (game_width game_height : number)
  (o : Options) (p : Platform) (h : Host) (q : Timers) :
  (initialized p = true ->
   (forall s, newCanvasRenderer p s = None) ->
   (forall s, isWebGLSupported p s = Some true ->
              newWebGLRenderer p s = None) ->
   init game_width game_height o p h q = Throw TypeError)
  /\ init game_width game_height o p h q <> ReturnFalse.
Proof.
  split.
  - intros Hinit Hcv Hgl. unfold init. rewrite Hinit. cbn [negb].
    set (s := sanitize game_width game_height o p).
    assert (Hsel : exists e, snd (select_renderer p s) = Thrown e).
    { unfold select_renderer, autoDetectRenderer, tryWebGL,
        construct_canvas.
      rewrite (Hcv s).
      destruct ((settings_renderer s =? AUTO)
                || (settings_renderer s =? WEBGL));
        [|eexists; reflexivity].
      destruct (isWebGLSupported p s) as [[]|] eqn:Hprobe;
        [rewrite (Hgl s Hprobe)|..]; eexists; reflexivity. }
    destruct Hsel as [e Hsel]. rewrite Hsel. reflexivity.
  - unfold init. destruct (negb (initialized p)); [discriminate|].
    destruct (snd (select_renderer p _));
      [destruct (onresize_throws _ _ _)|cbn [call console]]; discriminate.
Qed.

Lemma init_backend_failure_throws_witness :
  init (of_Z 640) (of_Z 480) (plain_options "fit" CANVAS)
    (plain_platform false false) (window_host 1280 960) no_timers
  = Throw TypeError.
Proof.
  apply (proj1 (init_backend_failure_throws (of_Z 640) (of_Z 480)
                  (plain_options "fit" CANVAS) (plain_platform false false)
                  (window_host 1280 960) no_timers)).
  - reflexivity.
  - intros s. reflexivity.
  - intros s H. reflexivity.
Defined.

(** ** The policy-name test *)

Lemma existsb_flat_map {A B : Type} (f : B -> bool) (g : A -> list B)
  (l : list A) :
  existsb f (flat_map g l) = existsb (fun a => existsb f (g a)) l.
Proof.
  induction l as [|a l IH]; [reflexivity|].
  cbn [flat_map existsb]. rewrite existsb_app, IH. reflexivity.
Qed.

Lemma existsb_map {A B : Type} (f : B -> bool) (g : A -> B) (l : list A) :
  existsb f (map g l) = existsb (fun a => f (g a)) l.
Proof.
  induction l as [|a l IH]; [reflexivity|].
  cbn [map existsb]. rewrite IH. reflexivity.
Qed.

Lemma existsb_ext {A : Type} (f g : A -> bool) (l : list A) :
  (forall a, f a = g a) -> existsb f l = existsb g l.
Proof.
  intros H. induction l as [|a l IH]; [reflexivity|].
  cbn [existsb]. rewrite H, IH. reflexivity.
Qed.

Lemma strip_prefix_app (u w s : list ascii) :
  strip_prefix (u ++ w) s
  = match strip_prefix u s with
    | Some s' => strip_prefix w s'
    | None => None
    end.
Proof.
  revert s. induction u as [|c u IH]; intros s; [reflexivity|].
  cbn [app strip_prefix]. destruct s as [|c' s]; [reflexivity|].
  destruct (Ascii.eqb c c'); [apply IH|reflexivity].
Qed.

Lemma strip_prefix_all (w s : list ascii) :
  strip_prefix w s = Some [] -> s = w.
Proof.
  revert s. induction w as [|c w IH]; intros s H.
  - cbn in H. injection H as H. exact H.
  - destruct s as [|c' s]; [discriminate H|].
    cbn [strip_prefix] in H.
    destruct (Ascii.eqb_spec c c') as [->|]; [|discriminate H].
    f_equal. apply IH, H.
Qed.

Lemma existsb_never {A : Type} (l : list A) :
  existsb (fun _ => false) l = false.
Proof. induction l as [|a l IH]; [reflexivity|exact IH]. Qed.

(** The matcher tries exactly the words of the pattern's language. *)
Lemma rmatch_lang (r : regex) :
  anchor_free r = true ->
  forall pos s k, rmatch r pos s k = existsb (after_word pos s k) (lang r).
Proof.
  induction r as [|c|r1 IH1 r2 IH2|r1 IH1 r2 IH2|r1 IH1| |];
    cbn [anchor_free]; intros Hfree pos s k;
    try discriminate Hfree; cbn [rmatch lang].
  - unfold after_word. cbn [existsb strip_prefix List.length].
    rewrite Nat.add_0_r, orb_false_r. reflexivity.
  - unfold after_word. cbn [existsb strip_prefix List.length].
    rewrite orb_false_r. destruct s as [|c' s]; [reflexivity|].
    destruct (Ascii.eqb c c'); [|reflexivity].
    rewrite Nat.add_1_r. reflexivity.
  - apply andb_prop in Hfree. destruct Hfree as [H1 H2].
    rewrite (IH1 H1), existsb_flat_map.
    apply existsb_ext. intros u. rewrite existsb_map.
    unfold after_word at 1.
    destruct (strip_prefix u s) as [s'|] eqn:Hu.
    + rewrite (IH2 H2). apply existsb_ext. intros w.
      unfold after_word. rewrite strip_prefix_app, Hu, length_app.
      rewrite Nat.add_assoc. reflexivity.
    + rewrite <- (existsb_never (lang r2)).
      apply existsb_ext. intros w.
      unfold after_word. rewrite strip_prefix_app, Hu. reflexivity.
  - apply andb_prop in Hfree. destruct Hfree as [H1 H2].
    rewrite existsb_app, (IH1 H1), (IH2 H2). reflexivity.
  - rewrite existsb_app, (IH1 Hfree). f_equal.
    unfold after_word. cbn [existsb strip_prefix List.length].
    rewrite Nat.add_0_r, orb_false_r. reflexivity.
Qed.

Lemma search_from_bound (r : regex) (s : list ascii) :
  forall pos, search_from r pos s = -1
              \/ Z.of_nat pos <= search_from r pos s.
Proof.
  induction s as [|c s IH]; intros pos; cbn [search_from];
    destruct (rmatch r pos _ _); try (right; lia); [left; reflexivity|].
  destruct (IH (S pos)) as [H|H]; [left; exact H|right; lia].
Qed.

Lemma search_zero (r : regex) (s : list ascii) :
  search_from r 0 s = 0 -> rmatch r 0 s (fun _ _ => true) = true.
Proof.
  destruct s as [|c s]; cbn [search_from];
    destruct (rmatch r 0 _ _); try reflexivity; [discriminate|].
  destruct (search_from_bound r s 1) as [H|H]; lia.
Qed.

(** A string on which the test of [init] succeeds is one of the seven
    policy names. *)
Lemma search_zero_policy_name (m : string) :
  search m scaleMethod_pattern = 0 -> In m policy_names.
Proof.
  unfold search. intros H. apply search_zero in H.
  change (rmatch scaleMethod_group 0 (list_ascii_of_string m)
            (fun pos' s' => rmatch Eol pos' s' (fun _ _ => true)) = true)
    in H.
  rewrite rmatch_lang in H by reflexivity.
  apply existsb_exists in H. destruct H as (w & Hin & Hw).
  unfold after_word in Hw.
  destruct (strip_prefix w (list_ascii_of_string m)) as [[|c rest]|] eqn:Hs;
    cbn [rmatch] in Hw; try discriminate Hw.
  apply strip_prefix_all in Hs.
  assert (Hm : m = string_of_list_ascii w)
    by (rewrite <- Hs; symmetry; apply string_of_list_ascii_of_string).
  rewrite Hm. clear - Hin.
  cbn in Hin.
  repeat (destruct Hin as [<-|Hin]; [cbn; tauto|]).
  destruct Hin.
Qed.

Lemma sanitize_scaleMethod_fit :
  sanitize_scaleMethod "fit" = "fit"%string.
Proof. reflexivity. Qed.

(** C7: a scaleMethod string that is not one of the seven policy names is
    replaced by ["fit"], and initialization then proceeds exactly as with
    ["fit"] itself, whatever the other arguments: no error is raised on
    its account.  The seven names themselves are kept. *)
Theorem unknown_scaleMethod_is_fit (m : string) :
  ~ In m policy_names ->
  sanitize_scaleMethod m = "fit"%string
  /\ (forall game_width game_height o p h q,
        option_scaleMethod o = m ->
        scaleMethod (sanitize game_width game_height o p) = "fit"%string
        /\ init game_width game_height o p h q
           = init game_width game_height (with_scaleMethod "fit" o) p h q)
  /\ (forall n, In n policy_names -> sanitize_scaleMethod n = n).
Proof.
  intros Hnot.
  assert (Hfit : sanitize_scaleMethod m = "fit"%string).
  { unfold sanitize_scaleMethod.
    destruct (search m scaleMethod_pattern =? 0) eqn:Hs; [|reflexivity].
    apply Z.eqb_eq in Hs. apply search_zero_policy_name in Hs.
    contradiction. }
  split; [exact Hfit|]. split.
  - intros game_width game_height o p h q Ho.
    assert (Hsan : sanitize game_width game_height o p
                   = sanitize game_width game_height
                       (with_scaleMethod "fit" o) p).
    { unfold sanitize.
      cbn [with_scaleMethod option_scale option_renderer
           option_doubleBuffering option_scaleMethod
           option_useParentDOMSize option_transparent option_blendMode
           option_antiAlias option_preferWebGL1].
      rewrite Ho, Hfit, sanitize_scaleMethod_fit. reflexivity. }
    split.
    + unfold sanitize. cbn [scaleMethod]. rewrite Ho. exact Hfit.
    + unfold init, before_first_resize. rewrite <- Hsan. reflexivity.
  - intros n Hn. cbn in Hn.
    repeat (destruct Hn as [<-|Hn]; [reflexivity|]).
    destruct Hn.
Qed.

Lemma unknown_scaleMethod_is_fit_witness :
  sanitize_scaleMethod "cover" = "fit"%string.
Proof.
  refine (proj1 (unknown_scaleMethod_is_fit "cover" _)).
  cbn. intros H.
  repeat (destruct H as [H|H]; [discriminate H|]).
  exact H.
Defined.

(** ** Applying a scale *)

(** C8: a second [scale(x, y)] with the same arguments leaves the canvas
    (its style dimensions included), the global scale, the anti-alias and
    blend flags and the pending-resize id as the first call left them,
    and it throws exactly when the first did; when both arguments are
    numbers, the global scale both calls leave is (x, y). *)
Theorem scale_idempotent (x y : number) (h : Host) (v : Video) :
  let v1 := scale x y h v in
  let v2 := scale x y h v1 in
  canvas (renderer v2) = canvas (renderer v1)
  /\ style_width (canvas (renderer v2)) = style_width (canvas (renderer v1))
  /\ style_height (canvas (renderer v2))
     = style_height (canvas (renderer v1))
  /\ sys_scale v2 = sys_scale v1
  /\ smoothing (renderer v2) = smoothing (renderer v1)
  /\ blend (renderer v2) = blend (renderer v1)
  /\ deferResizeId v2 = deferResizeId v1
  /\ (scale_throws x y = false -> sys_scale v1 = (x, y)).
Proof.
  intros v1 v2. unfold v2, v1, scale, scale_throws.
  destruct (invalid_vector x y); [repeat split; discriminate|].
  destruct (num_gt (devicePixelRatio h) (of_Z 1)); repeat split; reflexivity.
Qed.

Lemma scale_idempotent_witness :
  let v := video_800x600 "fit" in
  let h := window_host 1000 700 in
  sys_scale (scale (of_Z 2) (of_Z 3) h (scale (of_Z 2) (of_Z 3) h v))
  = (of_Z 2, of_Z 3).
Proof.
  intros v h.
  destruct (scale_idempotent (of_Z 2) (of_Z 3) h v)
    as (_ & _ & _ & H2 & _ & _ & _ & H1).
  etransitivity; [exact H2|]. apply H1. reflexivity.
Defined.

(** C10: [scale(x, y)] leaves the drawing-buffer width and height of the
    canvas as they were, and with them the renderer's kind and settings,
    the module settings, the design size and ratio, the display bounds
    and the timer queue. *)
Theorem scale_preserves_surface (x y : number) (h : Host) (v : Video) :
  width (canvas (renderer (scale x y h v))) = width (canvas (renderer v))
  /\ height (canvas (renderer (scale x y h v)))
     = height (canvas (renderer v))
  /\ kind (renderer (scale x y h v)) = kind (renderer v)
  /\ renderer_settings (renderer (scale x y h v))
     = renderer_settings (renderer v)
  /\ settings (scale x y h v) = settings v
  /\ designRatio (scale x y h v) = designRatio v
  /\ designWidth (scale x y h v) = designWidth v
  /\ designHeight (scale x y h v) = designHeight v
  /\ maxWidth (scale x y h v) = maxWidth v
  /\ maxHeight (scale x y h v) = maxHeight v
  /\ timers (scale x y h v) = timers v.
Proof.
  destruct (scale_canvas_size x y h v) as [Hw Hh].
  split; [exact Hw|]. split; [exact Hh|].
  unfold scale. destruct (invalid_vector x y); repeat split; reflexivity.
Qed.

(** ** Display bounds *)

Lemma Math_min_Infinity (x : number) : Math_min Infinity x = x.
Proof. destruct x as [s|[]| |s m e]; reflexivity. Qed.

(** C9: [setMaxSize(w, h)] stores Infinity for an argument that is
    [undefined], zero or NaN and the argument itself otherwise; it adds
    one deferred [onresize] to the timer queue, which the host runs
    without argument, hence not forced; and once a maximum is Infinity
    the clamped width (or height) is the floor of the measured container
    width (or height). *)
Theorem setMaxSize_falsy_unbounded (w ht : option number) (v : Video) :
  handles_fresh (timers v) ->
  let v' := setMaxSize w ht v in
  let id := next_handle (timers v) in
  (falsy w -> maxWidth v' = Infinity)
  /\ (falsy ht -> maxHeight v' = Infinity)
  /\ (forall n, w = Some n -> truthy n = true -> maxWidth v' = n)
  /\ (forall n, ht = Some n -> truthy n = true -> maxHeight v' = n)
  /\ pending (timers v') = pending (timers v) ++ [(id, TaskOnresize)]
  /\ (forall host,
        fire id host v'
        = onresize VUndef host
            (with_timers {| pending := pending (timers v);
                            next_handle := id + 1 |}
               (with_max (or_undef w Infinity) (or_undef ht Infinity) v)))
  /\ not_strictly_true VUndef = true
  /\ (falsy w -> forall host,
        _max_width v' host = Math_floor (containerWidth v' host))
  /\ (falsy ht -> forall host,
        _max_height v' host = Math_floor (containerHeight v' host)).
Proof.
  intros [Hpos Hlt] v' id.
  assert (Hw : falsy w -> maxWidth v' = Infinity).
  { destruct w as [n|]; cbn [falsy]; [|reflexivity].
    intros Hn. unfold v', setMaxSize.
    cbn [maxWidth with_timers with_max or_undef]. unfold or_else.
    rewrite Hn. reflexivity. }
  assert (Hh : falsy ht -> maxHeight v' = Infinity).
  { destruct ht as [n|]; cbn [falsy]; [|reflexivity].
    intros Hn. unfold v', setMaxSize.
    cbn [maxHeight with_timers with_max or_undef]. unfold or_else.
    rewrite Hn. reflexivity. }
  split; [exact Hw|]. split; [exact Hh|].
  split; [|split; [|split; [|split; [|split; [|split]]]]].
  - intros n -> Hn. unfold v', setMaxSize.
    cbn [maxWidth with_timers with_max or_undef]. unfold or_else.
    rewrite Hn. reflexivity.
  - intros n -> Hn. unfold v', setMaxSize.
    cbn [maxHeight with_timers with_max or_undef]. unfold or_else.
    rewrite Hn. reflexivity.
  - reflexivity.
  - intros host. unfold fire, v', setMaxSize.
    cbn [timers with_timers with_max defer snd pending next_handle
         clearTimeout].
    fold id. rewrite (find_app_fresh id TaskOnresize _ Hlt).
    unfold clearTimeout. cbn [pending next_handle].
    rewrite filter_app, (filter_fresh id _ Hlt).
    cbn [filter fst]. rewrite Z.eqb_refl. cbn [negb].
    rewrite app_nil_r. reflexivity.
  - reflexivity.
  - intros Hf host. unfold _max_width.
    fold (containerWidth v' host). rewrite (Hw Hf).
    rewrite Math_min_Infinity. reflexivity.
  - intros Hf host. unfold _max_height.
    fold (containerHeight v' host). rewrite (Hh Hf).
    rewrite Math_min_Infinity. reflexivity.
Qed.

Lemma setMaxSize_falsy_unbounded_witness :
  let v := with_max (of_Z 320) (of_Z 240) (video_800x600 "fit") in
  let v' := setMaxSize (Some (of_Z 0)) (Some NaN) v in
  maxWidth v = of_Z 320
  /\ maxWidth v' = Infinity
  /\ maxHeight v' = Infinity
  /\ pending (timers v') = [(1, TaskOnresize)]
  /\ _max_width v' (window_host 1000 700) = of_Z 1000.
Proof.
  intros v v'.
  assert (Hfresh : handles_fresh (timers v))
    by (split; [vm_compute; reflexivity|intros p []]).
  destruct (setMaxSize_falsy_unbounded (Some (of_Z 0)) (Some NaN) v Hfresh)
    as (Hw & Hh & _ & _ & Hp & _ & _ & Hc & _).
  split; [reflexivity|]. split; [apply Hw; reflexivity|].
  split; [apply Hh; reflexivity|]. split; [exact Hp|].
  etransitivity.
  - apply (Hc eq_refl (window_host 1000 700)).
  - vm_compute. reflexivity.
Defined.

(* ================================================================== *)
(** * Further properties of the module *)

(** ** The policies, branch by branch *)

Lemma onresize_keeps_surface (force : jsval) (h : Host) (v : Video) :
  autoScale (settings v) = false \/ surface (policy v h) = None ->
  width (canvas (renderer (onresize force h v))) = width (canvas (renderer v))
  /\ height (canvas (renderer (onresize force h v)))
     = height (canvas (renderer v)).
Proof.
  intros Hcase.
  destruct (autoScale (settings v)) eqn:Hauto;
    [|rewrite (onresize_off force h v Hauto); split; reflexivity].
  destruct Hcase as [Hoff|Hs]; [discriminate Hoff|].
  pose proof (prepared_canvas v h) as Hc. rewrite Hs in Hc.
  destruct (force_cases force) as [->|Hforce].
  - rewrite (onresize_applies h v Hauto). cbv zeta.
    destruct (invalid_vector _ _); [rewrite Hc; split; reflexivity|].
    cbn [renderer with_renderer updateBounds canvas].
    match goal with
    | |- context [scale ?x ?y ?h ?u] =>
        destruct (scale_canvas_size x y h u) as [Hw Hh]
    end.
    rewrite Hw, Hh, Hc. split; reflexivity.
  - rewrite (onresize_defers force h v Hauto Hforce). cbv zeta.
    cbn [renderer with_renderer with_timers with_deferResizeId
         updateBounds canvas].
    rewrite Hc. split; reflexivity.
Qed.

(** X1: fill-min and fill-max only choose between the flex-width and
    the flex-height computation by comparing the screen ratio with the
    design ratio (fill-max the other way round); when the screen ratio is
    neither above nor below the design ratio (equal, or NaN), both fall
    back to the fit computation and the canvas is not resized. *)
Theorem fill_policies_are_flex (v : Video) (h : Host) :
  scaleMethod (settings v) = "fill-min"%string
  \/ scaleMethod (settings v) = "fill-max"%string ->
  let above := num_gt (screenRatio v h) (designRatio v) in
  let below := num_lt (screenRatio v h) (designRatio v) in
  let fill_min := (scaleMethod (settings v) =? "fill-min")%string in
  ((if fill_min then above else below) = true ->
   policy v h = policy (with_method "flex-width" v) h)
  /\ ((if fill_min then below else above) = true ->
      policy v h = policy (with_method "flex-height" v) h)
  /\ (above = false -> below = false ->
      policy v h = policy (with_method "fit" v) h
      /\ surface (policy v h) = None).
Proof.
  intros Hm above below fill_min.
  assert (Hasym : below = true -> above = false) by apply num_lt_asym.
  assert (Hasym' : above = true -> below = false).
  { intros Ha. destruct below eqn:Hb; [|reflexivity].
    rewrite (Hasym eq_refl) in Ha. discriminate Ha. }
  unfold fill_min.
  destruct Hm as [Hm|Hm]; rewrite Hm; cbn [String.eqb Ascii.eqb Bool.eqb];
    (split; [|split]).
  - intros Ha. unfold policy. rewrite Hm. fold above. rewrite Ha.
    reflexivity.
  - intros Hb. unfold policy. rewrite Hm. fold above below.
    rewrite Hb, (Hasym Hb). reflexivity.
  - intros Ha Hb. unfold policy. rewrite Hm. fold above below.
    rewrite Ha, Hb.
    cbn [with_method settings scaleMethod designRatio
         String.eqb Ascii.eqb Bool.eqb andb orb].
    change (screenRatio (with_method "fit" v) h) with (screenRatio v h).
    fold below. rewrite Hb. split; reflexivity.
  - intros Hb. unfold policy. rewrite Hm. fold below. rewrite Hb.
    reflexivity.
  - intros Ha. unfold policy. rewrite Hm. fold above below.
    rewrite Ha, (Hasym' Ha). reflexivity.
  - intros Ha Hb. unfold policy. rewrite Hm. fold above below.
    rewrite Ha, Hb.
    cbn [with_method settings scaleMethod designRatio
         String.eqb Ascii.eqb Bool.eqb andb orb].
    change (screenRatio (with_method "fit" v) h) with (screenRatio v h).
    fold below. rewrite Hb. split; reflexivity.
Qed.

Lemma fill_policies_are_flex_witness :
  let h := window_host 1000 700 in
  policy (video_800x600 "fill-min") h = policy (video_800x600 "flex-width") h
  /\ policy (video_800x600 "fill-max") h
     = policy (video_800x600 "flex-height") h.
Proof.
  intros h. split.
  - apply (proj1 (fill_policies_are_flex (video_800x600 "fill-min") h
                    (or_introl eq_refl))).
    vm_compute. reflexivity.
  - apply (proj1 (proj2 (fill_policies_are_flex (video_800x600 "fill-max") h
                           (or_intror eq_refl)))).
    vm_compute. reflexivity.
Defined.

(** X2: under fill-min with the screen ratio below the design ratio,
    under fill-max with the screen ratio above it, or under flex-height,
    the policy takes
    [sHeight = min(maxHeight, designWidth * (_max_height / _max_width))],
    sets both factors to [_max_height / sHeight] (the height before
    rounding) and asks for the surface [(designWidth, ~~(sHeight + 0.5))];
    with autoscaling on, that is the canvas size once [onresize]
    returns. *)
Theorem fill_height_policy (v : Video) (h : Host) :
  (scaleMethod (settings v) = "fill-min"%string
   /\ num_lt (screenRatio v h) (designRatio v) = true)
  \/ (scaleMethod (settings v) = "fill-max"%string
      /\ num_gt (screenRatio v h) (designRatio v) = true)
  \/ scaleMethod (settings v) = "flex-height"%string ->
  let sHeight :=
    Math_min (maxHeight v)
      (mul (designWidth v) (div (_max_height v h) (_max_width v h))) in
  let s := div (_max_height v h) sHeight in
  policy v h
  = {| scaleX := s; scaleY := s;
       surface := Some (designWidth v, double_tilde (add sHeight half)) |}
  /\ (autoScale (settings v) = true ->
      forall force,
        width (canvas (renderer (onresize force h v))) = designWidth v
        /\ height (canvas (renderer (onresize force h v)))
           = double_tilde (add sHeight half)).
Proof.
  intros Hcase sHeight s.
  assert (Hp : policy v h
               = {| scaleX := s; scaleY := s;
                    surface := Some (designWidth v,
                                     double_tilde (add sHeight half)) |}).
  { unfold policy.
    destruct Hcase as [[Hm Hlt]|[[Hm Hgt]|Hm]]; rewrite Hm.
    - rewrite Hlt, (num_lt_asym _ _ Hlt). reflexivity.
    - rewrite Hgt.
      assert (Hlt : num_lt (screenRatio v h) (designRatio v) = false)
        by (apply (num_lt_asym (designRatio v) (screenRatio v h)); exact Hgt).
      rewrite Hlt. reflexivity.
    - reflexivity. }
  split; [exact Hp|].
  intros Hauto force.
  apply onresize_surface; [exact Hauto|].
  rewrite Hp. reflexivity.
Qed.

Lemma fill_height_policy_witness :
  let v := video_800x600 "fill-min" in
  let h := window_host 700 1000 in
  surface (policy v h) = Some (of_Z 800, of_Z 1143).
Proof.
  intros v h.
  assert (Hcase : (scaleMethod (settings v) = "fill-min"%string
                   /\ num_lt (screenRatio v h) (designRatio v) = true)
                  \/ (scaleMethod (settings v) = "fill-max"%string
                      /\ num_gt (screenRatio v h) (designRatio v) = true)
                  \/ scaleMethod (settings v) = "flex-height"%string)
    by (left; split; vm_compute; reflexivity).
  rewrite (proj1 (fill_height_policy v h Hcase)).
  vm_compute. reflexivity.
Defined.

(** The style a forced resize leaves on the canvas when it applies the
    factors. *)
Lemma onresize_forced_style (h : Host) (v : Video) :
  autoScale (settings v) = true ->
  invalid_vector (fst (adjusted v h)) (snd (adjusted v h)) = false ->
  let v' := onresize (VBool true) h v in
  let w := mul (width (canvas (renderer v'))) (fst (adjusted v h)) in
  let ht := mul (height (canvas (renderer v'))) (snd (adjusted v h)) in
  style_width (canvas (renderer v'))
  = Some (if num_gt (devicePixelRatio h) (of_Z 1)
          then div w (devicePixelRatio h) else w)
  /\ style_height (canvas (renderer v'))
     = Some (if num_gt (devicePixelRatio h) (of_Z 1)
             then div ht (devicePixelRatio h) else ht).
Proof.
  intros Hauto Hok. rewrite (onresize_applies h v Hauto). cbv zeta.
  rewrite Hok. unfold scale. rewrite Hok.
  destruct (num_gt (devicePixelRatio h) (of_Z 1)); split; reflexivity.
Qed.

(** X3: under flex the canvas is resized to exactly the clamped
    container size and both factors handed to [scale] are the device
    pixel ratio itself; at pixel ratio 1 a forced resize therefore
    displays the canvas at its drawing-buffer size, the clamped container
    size. *)
Theorem flex_policy (v : Video) (h : Host) :
  scaleMethod (settings v) = "flex"%string ->
  autoScale (settings v) = true ->
  valid (devicePixelRatio h) ->
  adjusted v h = (devicePixelRatio h, devicePixelRatio h)
  /\ (forall force,
        width (canvas (renderer (onresize force h v))) = _max_width v h
        /\ height (canvas (renderer (onresize force h v)))
           = _max_height v h)
  /\ (devicePixelRatio h = of_Z 1 ->
      valid (_max_width v h) -> valid (_max_height v h) ->
      style_width (canvas (renderer (onresize (VBool true) h v)))
      = Some (_max_width v h)
      /\ style_height (canvas (renderer (onresize (VBool true) h v)))
         = Some (_max_height v h)).
Proof.
  intros Hm Hauto Hdpr.
  assert (Hp : policy v h
               = {| scaleX := of_Z 1; scaleY := of_Z 1;
                    surface := Some (_max_width v h, _max_height v h) |})
    by (unfold policy; rewrite Hm; reflexivity).
  assert (Ha : adjusted v h = (devicePixelRatio h, devicePixelRatio h)).
  { unfold adjusted. rewrite Hp. cbn [scaleX scaleY].
    rewrite (mul_one_l _ Hdpr). reflexivity. }
  assert (Hsize : forall force,
             width (canvas (renderer (onresize force h v))) = _max_width v h
             /\ height (canvas (renderer (onresize force h v)))
                = _max_height v h).
  { intros force. apply onresize_surface; [exact Hauto|].
    rewrite Hp. reflexivity. }
  split; [exact Ha|]. split; [exact Hsize|].
  intros Hone Hw Hh.
  assert (Hok : invalid_vector (fst (adjusted v h)) (snd (adjusted v h))
                = false)
    by (rewrite Ha, Hone; reflexivity).
  destruct (onresize_forced_style h v Hauto Hok) as [Hsw Hsh].
  destruct (Hsize (VBool true)) as [Hcw Hch].
  rewrite Hsw, Hsh, Hcw, Hch, Ha, Hone. cbn [fst snd].
  rewrite (mul_one_r _ Hw), (mul_one_r _ Hh). split; reflexivity.
Qed.

Lemma flex_policy_witness :
  let v := video_800x600 "flex" in
  let h := window_host 1000 700 in
  canvas (renderer (onresize (VBool true) h v))
  = {| width := of_Z 1000; height := of_Z 700;
       style_width := Some (of_Z 1000); style_height := Some (of_Z 700) |}.
Proof.
  intros v h.
  destruct (flex_policy v h eq_refl eq_refl eq_refl) as (_ & Hsize & Hstyle).
  destruct (Hsize (VBool true)) as [Hw Hh].
  destruct (Hstyle eq_refl eq_refl eq_refl) as [Hsw Hsh].
  destruct (canvas (renderer (onresize (VBool true) h v)))
    as [cw ch sw sh].
  cbn [width height style_width style_height] in *.
  rewrite Hw, Hh, Hsw, Hsh. vm_compute. reflexivity.
Defined.

(** X4: the fit and stretch policies never resize the canvas: whatever
    the container, the pixel ratio and the [force] argument, [onresize]
    leaves the drawing-buffer width and height as they were; so does
    every policy while autoscaling is off. *)
Theorem fit_stretch_never_resize (force : jsval) (h : Host) (v : Video) :
  scaleMethod (settings v) = "fit"%string
  \/ scaleMethod (settings v) = "stretch"%string
  \/ autoScale (settings v) = false ->
  width (canvas (renderer (onresize force h v))) = width (canvas (renderer v))
  /\ height (canvas (renderer (onresize force h v)))
     = height (canvas (renderer v)).
Proof.
  intros Hcase. apply onresize_keeps_surface.
  destruct Hcase as [Hm|[Hm|Hoff]]; [right|right|left; exact Hoff];
    unfold policy; rewrite Hm;
    cbn [String.eqb Ascii.eqb Bool.eqb andb orb]; [|reflexivity].
  destruct (num_lt (screenRatio v h) (designRatio v)); reflexivity.
Qed.

Lemma fit_stretch_never_resize_witness :
  let v := video_800x600 "stretch" in
  let v' := onresize (VBool true) (window_host 1280 960) v in
  width (canvas (renderer v')) = of_Z 800
  /\ height (canvas (renderer v')) = of_Z 600
  /\ sys_scale v' = (div (of_Z 8) (of_Z 5), div (of_Z 8) (of_Z 5)).
Proof.
  intros v v'.
  destruct (fit_stretch_never_resize (VBool true) (window_host 1280 960) v
              (or_intror (or_introl eq_refl))) as [Hw Hh].
  split; [exact Hw|]. split; [exact Hh|]. vm_compute. reflexivity.
Defined.

(** X5: for a positive finite design size, clamped container size and
    pixel ratio, and bounds that are positive or infinite, every one of
    the policies yields factors that are neither NaN nor negative. *)
Theorem factors_never_NaN (v : Video) (h : Host) :
  positive_finite (designWidth v) -> positive_finite (designHeight v) ->
  positive_bound (maxWidth v) -> positive_bound (maxHeight v) ->
  positive_finite (_max_width v h) -> positive_finite (_max_height v h) ->
  positive_finite (devicePixelRatio h) ->
  nonneg_number (fst (adjusted v h)) /\ nonneg_number (snd (adjusted v h)).
Proof.
  intros HdW HdH HmaxW HmaxH Hw Hh Hdpr.
  assert (HsW : nonneg_number
                  (Math_min (maxWidth v)
                     (mul (designHeight v) (screenRatio v h)))).
  { apply Math_min_nonneg; [apply positive_bound_nonneg, HmaxW|].
    apply mul_positive_nonneg; [exact HdH|].
    apply div_positive_finite; assumption. }
  assert (HsH : nonneg_number
                  (Math_min (maxHeight v)
                     (mul (designWidth v)
                        (div (_max_height v h) (_max_width v h))))).
  { apply Math_min_nonneg; [apply positive_bound_nonneg, HmaxH|].
    apply mul_positive_nonneg; [exact HdW|].
    apply div_positive_finite; assumption. }
  assert (Hp : nonneg_number (scaleX (policy v h))
               /\ nonneg_number (scaleY (policy v h))).
  { unfold policy.
    repeat match goal with
           | |- context [if ?c then _ else _] => destruct c
           end;
      cbn [scaleX scaleY]; split;
      first [ exact I
            | apply div_positive_nonneg; assumption
            | apply div_positive_finite; assumption ]. }
  unfold adjusted. cbn [fst snd].
  split; apply mul_nonneg_positive; solve [apply Hp | exact Hdpr].
Qed.

Lemma factors_never_NaN_witness :
  let v := with_max (of_Z 900) Infinity (video_800x600 "fill-max") in
  let h := window_host 1000 700 in
  fst (adjusted v h) <> NaN.
Proof.
  intros v h. apply nonneg_not_NaN.
  exact (proj1 (factors_never_NaN v h I I I I I I I)).
Defined.

(** ** What the events leave alone *)

Lemma scale_frame (x y : number) (h : Host) (v : Video) :
  settings (scale x y h v) = settings v
  /\ designRatio (scale x y h v) = designRatio v
  /\ designWidth (scale x y h v) = designWidth v
  /\ designHeight (scale x y h v) = designHeight v
  /\ maxWidth (scale x y h v) = maxWidth v
  /\ maxHeight (scale x y h v) = maxHeight v.
Proof.
  unfold scale. destruct (invalid_vector x y); repeat split; reflexivity.
Qed.

Lemma fire_frame (id : Z) (h : Host) (v : Video) :
  settings (fire id h v) = settings v
  /\ designRatio (fire id h v) = designRatio v
  /\ designWidth (fire id h v) = designWidth v
  /\ designHeight (fire id h v) = designHeight v
  /\ maxWidth (fire id h v) = maxWidth v
  /\ maxHeight (fire id h v) = maxHeight v.
Proof.
  unfold fire.
  destruct (find _ (pending (timers v))) as [[id' [x y|]]|].
  - apply (scale_frame x y h (with_timers (clearTimeout id (timers v)) v)).
  - apply (onresize_frame VUndef h
             (with_timers (clearTimeout id (timers v)) v)).
  - repeat split; reflexivity.
Qed.

Lemma step_frame (e : Event) (v : Video) :
  settings (step v e) = settings v
  /\ designRatio (step v e) = designRatio v
  /\ designWidth (step v e) = designWidth v
  /\ designHeight (step v e) = designHeight v
  /\ (no_bounds_change [e] = true ->
      maxWidth (step v e) = maxWidth v
      /\ maxHeight (step v e) = maxHeight v).
Proof.
  destruct e as [force h|w ht|id h]; cbn [step].
  - destruct (onresize_frame force h v) as (Hs & Hr & Hw & Hh & Hmw & Hmh).
    repeat split; assumption.
  - repeat split; try reflexivity; discriminate.
  - destruct (fire_frame id h v) as (Hs & Hr & Hw & Hh & Hmw & Hmh).
    repeat split; assumption.
Qed.

Lemma run_frame (es : list Event) (v : Video) :
  settings (run es v) = settings v
  /\ designRatio (run es v) = designRatio v
  /\ designWidth (run es v) = designWidth v
  /\ designHeight (run es v) = designHeight v
  /\ (no_bounds_change es = true ->
      maxWidth (run es v) = maxWidth v
      /\ maxHeight (run es v) = maxHeight v).
Proof.
  revert v. induction es as [|e es IH]; intros v.
  - repeat split; reflexivity.
  - cbn [run fold_left]. fold (run es (step v e)).
    destruct (IH (step v e)) as (Hs & Hr & Hw & Hh & Hmax).
    destruct (step_frame e v) as (Hs' & Hr' & Hw' & Hh' & Hmax').
    rewrite Hs, Hr, Hw, Hh.
    split; [exact Hs'|]. split; [exact Hr'|]. split; [exact Hw'|].
    split; [exact Hh'|].
    intros Hno. cbn [no_bounds_change forallb] in Hno.
    apply andb_prop in Hno. destruct Hno as [He Hes].
    destruct (Hmax Hes) as [Hmw Hmh]. rewrite Hmw, Hmh.
    apply Hmax'. cbn [no_bounds_change forallb]. rewrite He. reflexivity.
Qed.

(** X6: the settings, the design width and height and the design ratio
    never change once set: every sequence of container changes, bound
    changes and timer firings leaves them as they were; the display
    bounds change only through [setMaxSize]. *)
Theorem design_is_immutable (es : list Event) (v : Video) :
  settings (run es v) = settings v
  /\ designRatio (run es v) = designRatio v
  /\ designWidth (run es v) = designWidth v
  /\ designHeight (run es v) = designHeight v
  /\ (no_bounds_change es = true ->
      maxWidth (run es v) = maxWidth v
      /\ maxHeight (run es v) = maxHeight v).
Proof.
  destruct (run_frame es v) as (Hs & Hr & Hw & Hh & Hmax).
  split; [exact Hs|]. split; [exact Hr|]. split; [exact Hw|].
  split; [exact Hh|]. exact Hmax.
Qed.

(** X7: a bound set with [setMaxSize] below the measured container width
    caps the clamped width at the floor of that bound, and keeps doing so
    across container changes and timer firings until [setMaxSize] is
    called again. *)
Theorem bound_caps_until_changed (w : number) (ht : option number)
  (v : Video) (es : list Event) (host : Host) :
  truthy w = true ->
  no_bounds_change es = true ->
  let v' := run es (setMaxSize (Some w) ht v) in
  num_lt w (containerWidth v host) = true ->
  maxWidth v' = w /\ _max_width v' host = Math_floor w.
Proof.
  intros Hw Hno v' Hlt.
  destruct (run_frame es (setMaxSize (Some w) ht v))
    as (Hs & _ & _ & _ & Hmax).
  destruct (Hmax Hno) as [Hmw _]. fold v' in Hs, Hmw.
  assert (Hmax' : maxWidth v' = w).
  { rewrite Hmw. unfold setMaxSize.
    cbn [maxWidth with_timers with_max or_undef]. unfold or_else.
    rewrite Hw. reflexivity. }
  split; [exact Hmax'|].
  unfold _max_width. rewrite Hmax', Hs.
  change (settings (setMaxSize (Some w) ht v)) with (settings v).
  fold (containerWidth v host).
  rewrite (Math_min_below _ _ Hlt). reflexivity.
Qed.

Lemma bound_caps_until_changed_witness :
  let v := setMaxSize (Some (of_Z 640)) None (video_800x600 "fit") in
  let es := [ContainerChange VObj (window_host 1000 700);
             TimerFires 1 (window_host 1000 700);
             TimerFires 2 (window_host 1000 700)] in
  _max_width (run es v) (window_host 1600 900) = of_Z 640.
Proof.
  intros v es.
  refine (eq_trans
            (proj2 (bound_caps_until_changed (of_Z 640) None
                      (video_800x600 "fit") es (window_host 1600 900)
                      eq_refl eq_refl _)) _);
    vm_compute; reflexivity.
Defined.

Lemma design_is_immutable_witness :
  let v := video_800x600 "flex" in
  let es := [ContainerChange VObj (window_host 1000 700);
             TimerFires 1 (window_host 1000 700)] in
  designWidth (run es v) = of_Z 800 /\ maxWidth (run es v) = Infinity.
Proof.
  intros v es.
  destruct (design_is_immutable es v) as (_ & _ & Hw & _ & Hmax).
  split; [exact Hw|]. exact (proj1 (Hmax eq_refl)).
Defined.

(** ** Autoscaling off *)

Lemma step_without_autoscale (e : Event) (v : Video) :
  autoScale (settings v) = false ->
  pending_scales v = [] ->
  sys_scale (step v e) = sys_scale v
  /\ canvas (renderer (step v e)) = canvas (renderer v)
  /\ repaints (step v e) = repaints v
  /\ pending_scales (step v e) = [].
Proof.
  intros Hoff Hnone.
  destruct e as [force h|w ht|id h]; cbn [step].
  - rewrite (onresize_off force h v Hoff). unfold pending_scales.
    repeat split; try reflexivity. exact Hnone.
  - unfold setMaxSize, pending_scales.
    cbn [timers with_timers with_max defer snd pending].
    rewrite filter_app. cbn [filter is_scale_task snd].
    rewrite app_nil_r. repeat split; try reflexivity. exact Hnone.
  - unfold fire.
    destruct (find _ (pending (timers v))) as [[id' t]|] eqn:Hfind;
      [|repeat split; try reflexivity; exact Hnone].
    apply find_some in Hfind. destruct Hfind as [Hin _].
    destruct t as [x y|].
    + assert (Hin' : In (id', TaskScale x y) (pending_scales v))
        by (apply filter_In; split; [exact Hin|reflexivity]).
      rewrite Hnone in Hin'. destruct Hin'.
    + rewrite (onresize_off VUndef h
                 (with_timers (clearTimeout id (timers v)) v) Hoff).
      unfold pending_scales.
      cbn [sys_scale renderer repaints timers with_renderer with_timers
           updateBounds canvas clearTimeout pending].
      rewrite filter_swap. fold (pending_scales v). rewrite Hnone.
      repeat split; reflexivity.
Qed.

(** X8: while autoscaling is off and no application was deferred, the
    module never touches the scale: no sequence of container changes,
    bound changes and timer firings changes the global scale or the
    canvas (size and style), requests a repaint or defers an
    application. *)
Theorem without_autoscale_scale_is_kept (es : list Event) (v : Video) :
  autoScale (settings v) = false ->
  pending_scales v = [] ->
  sys_scale (run es v) = sys_scale v
  /\ canvas (renderer (run es v)) = canvas (renderer v)
  /\ repaints (run es v) = repaints v
  /\ pending_scales (run es v) = [].
Proof.
  revert v. induction es as [|e es IH]; intros v Hoff Hnone.
  - repeat split; try reflexivity. exact Hnone.
  - cbn [run fold_left]. fold (run es (step v e)).
    destruct (step_without_autoscale e v Hoff Hnone)
      as (Hs & Hc & Hr & Hp).
    assert (Hoff' : autoScale (settings (step v e)) = false)
      by (rewrite (proj1 (step_frame e v)); exact Hoff).
    destruct (IH (step v e) Hoff' Hp) as (Hs' & Hc' & Hr' & Hp').
    rewrite Hs', Hc', Hr', Hs, Hc, Hr. repeat split. exact Hp'.
Qed.

Lemma without_autoscale_scale_is_kept_witness :
  let v := with_sys_scale (of_Z 2) (of_Z 2)
             {| deferResizeId := -1;
                designRatio := div (of_Z 800) (of_Z 600);
                designWidth := of_Z 800; designHeight := of_Z 600;
                maxWidth := Infinity; maxHeight := Infinity;
                settings := plain_settings "fit" false;
                renderer := plain_renderer CanvasRenderer
                              (plain_settings "fit" false);
                sys_scale := (of_Z 1, of_Z 1); repaints := 0;
                timers := no_timers |} in
  let es := [SetMaxSize (Some (of_Z 320)) None;
             ContainerChange (VBool true) (window_host 1000 700);
             TimerFires 1 (window_host 1000 700)] in
  sys_scale (run es v) = (of_Z 2, of_Z 2).
Proof.
  intros v es.
  exact (proj1 (without_autoscale_scale_is_kept es v eq_refl eq_refl)).
Defined.

(** ** Deferred against forced *)

(** X9: deferring changes nothing of what is applied.  With autoscaling
    on, fresh handles and computed factors that are numbers, a resize
    that is not forced followed by the firing of its handle (the host
    unchanged meanwhile) ends in the state a forced resize reaches at
    once; only the handle counter has advanced. *)
Theorem deferred_then_fired_is_forced (force : jsval) (h : Host)
  (v : Video) :
  handles_fresh (timers v) ->
  autoScale (settings v) = true ->
  not_strictly_true force = true ->
  invalid_vector (fst (adjusted v h)) (snd (adjusted v h)) = false ->
  fire (next_handle (timers v)) h (onresize force h v)
  = with_timers {| pending := pending (after_cancel v);
                   next_handle := next_handle (timers v) + 1 |}
      (onresize (VBool true) h v).
Proof.
  intros Hfresh Hauto Hforce Hok.
  destruct (after_cancel_fresh v Hfresh) as [_ Hlt].
  rewrite after_cancel_next in Hlt.
  rewrite (onresize_defers force h v Hauto Hforce),
          (onresize_applies h v Hauto).
  cbv zeta. rewrite Hok.
  unfold fire.
  cbn [timers with_renderer with_deferResizeId with_timers defer snd
       pending next_handle].
  rewrite (prepared_timers v h), after_cancel_next.
  rewrite (find_app_fresh _ _ _ Hlt).
  unfold clearTimeout. cbn [pending next_handle].
  rewrite filter_app, (filter_fresh _ _ Hlt).
  cbn [filter fst]. rewrite Z.eqb_refl. cbn [negb]. rewrite app_nil_r.
  unfold scale. rewrite Hok.
  destruct (num_gt (devicePixelRatio h) (of_Z 1)); reflexivity.
Qed.

Lemma deferred_then_fired_is_forced_witness :
  let v := video_800x600 "flex" in
  let h := window_host 1000 700 in
  sys_scale (fire 1 h (onresize VUndef h v)) = (of_Z 1, of_Z 1)
  /\ canvas (renderer (fire 1 h (onresize VUndef h v)))
     = canvas (renderer (onresize (VBool true) h v)).
Proof.
  intros v h.
  assert (Hfresh : handles_fresh (timers v))
    by (split; [vm_compute; reflexivity|intros p []]).
  change 1 with (next_handle (timers v)).
  rewrite (deferred_then_fired_is_forced VUndef h v Hfresh eq_refl eq_refl
             eq_refl).
  split; [vm_compute|]; reflexivity.
Defined.

(** X10: a forced resize supersedes a deferred one.  After a resize that
    is not forced, a forced resize leaves nothing pending and the handle
    of the deferred application no longer fires; when its own factors
    are numbers it applies them at once, repaints once and resets the
    pending id; when one is NaN it throws, and scale and repaint count
    stay as they were. *)
Theorem forced_supersedes_deferred (v : Video) (f1 : jsval)
  (h1 h2 h3 : Host) :
  coordinated v ->
  autoScale (settings v) = true ->
  not_strictly_true f1 = true ->
  let v1 := onresize f1 h1 v in
  let v2 := onresize (VBool true) h2 v1 in
  let invalid := invalid_vector (fst (adjusted v1 h2))
                                (snd (adjusted v1 h2)) in
  pending_scales v2 = []
  /\ fire (next_handle (timers v)) h3 v2 = v2
  /\ (invalid = false ->
      sys_scale v2 = adjusted v1 h2
      /\ deferResizeId v2 = -1
      /\ repaints v2 = S (repaints v))
  /\ (invalid = true ->
      onresize_throws (VBool true) h2 v1 = true
      /\ sys_scale v2 = sys_scale v
      /\ repaints v2 = repaints v).
Proof.
  intros Hco Hauto Hf1 v1 v2 invalid.
  pose proof (onresize_coordinated f1 h1 v Hco) as Hco1. fold v1 in Hco1.
  destruct (onresize_deferred f1 h1 v Hauto Hf1)
    as (_ & _ & Hid1 & Hs1 & Hr1).
  fold v1 in Hid1, Hs1, Hr1.
  assert (Hauto1 : autoScale (settings v1) = true)
    by (unfold v1; rewrite (proj1 (onresize_frame f1 h1 v)); exact Hauto).
  destruct (onresize_forced h2 v1 Hauto1) as (Ht2 & Hok2 & Hinv2).
  fold v2 invalid in Ht2, Hok2, Hinv2.
  assert (Hpos : 0 < next_handle (timers v)) by apply Hco.
  assert (Hcancel : after_cancel v1
                    = clearTimeout (next_handle (timers v)) (timers v1)).
  { unfold after_cancel. rewrite Hid1.
    replace (next_handle (timers v) >? 0) with true; [reflexivity|].
    symmetry. rewrite Z.gtb_ltb. apply Z.ltb_lt. exact Hpos. }
  split; [unfold pending_scales; rewrite Ht2;
          apply after_cancel_scales, Hco1|].
  split.
  { unfold fire. rewrite Ht2, Hcancel. unfold clearTimeout at 1.
    cbn [pending]. rewrite find_cleared. reflexivity. }
  split.
  - intros Hok. destruct (Hok2 Hok) as [Hd Hr].
    split; [apply onresize_forced_sys_scale; assumption|].
    split; [exact Hd|]. rewrite Hr, Hr1. reflexivity.
  - intros Hinv. destruct (Hinv2 Hinv) as (_ & Hr & Hs).
    split; [unfold onresize_throws, scale_throws; rewrite Hauto1;
            exact Hinv|].
    split; [rewrite Hs; exact Hs1|]. rewrite Hr. exact Hr1.
Qed.

Lemma forced_supersedes_deferred_witness :
  let v := video_800x600 "fit" in
  let v2 := onresize (VBool true) (window_host 1280 600)
              (onresize VUndef (window_host 1000 700) v) in
  pending_scales v2 = [] /\ fire 1 (window_host 1280 600) v2 = v2.
Proof.
  intros v v2.
  assert (Hco : coordinated v).
  { split; [split; [vm_compute; reflexivity|intros p []]|].
    left. reflexivity. }
  destruct (forced_supersedes_deferred v VUndef (window_host 1000 700)
              (window_host 1280 600) (window_host 1280 600)
              Hco eq_refl eq_refl)
    as (Hp & Hf & _).
  split; [exact Hp|exact Hf].
Defined.

(** ** Backend selection, case by case *)

(** X11: [autoDetectRenderer] makes its constructor calls in one of three
    ways only: the WebGL constructor alone, which succeeded and whose
    renderer is returned; the WebGL constructor, which threw, then the
    canvas constructor; or the canvas constructor alone, when the probe
    denies support or itself throws.  In the last two cases the outcome
    is the canvas constructor's: its renderer, or its exception. *)
Theorem autoDetectRenderer_cases (p : Platform) (s : Settings) :
  (exists gl,
     isWebGLSupported p s = Some true
     /\ newWebGLRenderer p s = Some gl
     /\ autoDetectRenderer p s = ([TryWebGL true], Returned gl))
  \/ (isWebGLSupported p s = Some true
      /\ newWebGLRenderer p s = None
      /\ autoDetectRenderer p s
         = (TryWebGL false :: fst (construct_canvas p s),
            snd (construct_canvas p s)))
  \/ (isWebGLSupported p s <> Some true
      /\ autoDetectRenderer p s = construct_canvas p s).
Proof.
  unfold autoDetectRenderer, tryWebGL.
  destruct (isWebGLSupported p s) as [[]|].
  - destruct (newWebGLRenderer p s) as [gl|].
    + left. exists gl. repeat split; reflexivity.
    + right. left. cbn [is_some].
      destruct (construct_canvas p s) as [calls res].
      repeat split; reflexivity.
  - right. right. split; [discriminate|].
    destruct (construct_canvas p s) as [calls res]. reflexivity.
  - right. right. split; [discriminate|].
    destruct (construct_canvas p s) as [calls res]. reflexivity.
Qed.

(** X12: a webgl, webgl1 or webgl2 flag in the URL fragment overrides
    the caller's renderer choice: even when the canvas renderer was asked
    for, a supported WebGL is constructed and returned without the canvas
    constructor being called, and a webgl2 flag also turns
    [preferWebGL1] off. *)
Theorem uri_fragment_forces_webgl (game_width game_height : number)
  (o : Options) (p : Platform) (gl : Renderer) :
  uri_webgl p || uri_webgl1 p || uri_webgl2 p = true ->
  let s := sanitize game_width game_height o p in
  isWebGLSupported p s = Some true ->
  newWebGLRenderer p s = Some gl ->
  settings_renderer s = WEBGL
  /\ select_renderer p s = ([TryWebGL true], Returned gl)
  /\ (uri_webgl2 p = true -> preferWebGL1 s = false).
Proof.
  intros Huri s Hprobe Hgl.
  assert (Hr : settings_renderer s = WEBGL).
  { unfold s. rewrite sanitize_renderer, Huri. reflexivity. }
  split; [exact Hr|]. split.
  - unfold select_renderer, autoDetectRenderer, tryWebGL.
    rewrite Hr, Hprobe, Hgl. reflexivity.
  - intros H2. unfold s, sanitize. cbn [preferWebGL1]. rewrite H2.
    reflexivity.
Qed.

Lemma uri_fragment_forces_webgl_witness :
  let p := {| initialized := true;
              uri_webgl := false; uri_webgl1 := false; uri_webgl2 := true;
              isWebGLSupported := fun _ => Some true;
              newWebGLRenderer :=
                fun s => Some (plain_renderer WebGLRenderer s);
              newCanvasRenderer :=
                fun s => Some (plain_renderer CanvasRenderer s);
              computedMaxSize := None |} in
  let s := sanitize (of_Z 640) (of_Z 480) (plain_options "fit" CANVAS) p in
  fst (select_renderer p s) = [TryWebGL true] /\ preferWebGL1 s = false.
Proof.
  intros p s.
  destruct (uri_fragment_forces_webgl (of_Z 640) (of_Z 480)
              (plain_options "fit" CANVAS) p
              (plain_renderer WebGLRenderer s) eq_refl eq_refl eq_refl)
    as (_ & Hsel & Hpref).
  split; [fold s in Hsel; rewrite Hsel; reflexivity|].
  apply Hpref. reflexivity.
Defined.

(** ** Initialization *)

(** The state [init] has built when it reaches its initial resize. *)
Lemma before_first_resize_facts (game_width game_height : number)
  (o : Options) (p : Platform) (h : Host) (q : Timers) (r : Renderer) :
  let v0 := before_first_resize game_width game_height o p h q r in
  settings v0 = sanitize game_width game_height o p
  /\ designRatio v0 = div game_width game_height
  /\ designWidth v0 = game_width
  /\ designHeight v0 = game_height
  /\ deferResizeId v0 = -1
  /\ sys_scale v0
     = (settings_scale (sanitize game_width game_height o p),
        settings_scale (sanitize game_width game_height o p))
  /\ repaints v0 = 0%nat
  /\ width (canvas (renderer v0)) = width (canvas r)
  /\ height (canvas (renderer v0)) = height (canvas r)
  /\ filter is_scale_task (pending (timers v0))
     = filter is_scale_task (pending q)
  /\ maxWidth v0 = match computedMaxSize p with
                   | Some (w, _) => or_undef w Infinity
                   | None => Infinity
                   end
  /\ maxHeight v0 = match computedMaxSize p with
                    | Some (_, ht) => or_undef ht Infinity
                    | None => Infinity
                    end.
Proof.
  assert (Hcv : width (canvas (hidpi_style (devicePixelRatio h) r))
                = width (canvas r)
                /\ height (canvas (hidpi_style (devicePixelRatio h) r))
                   = height (canvas r)).
  { unfold hidpi_style.
    destruct (num_gt (devicePixelRatio h) (of_Z 1)); split; reflexivity. }
  destruct Hcv as [Hw Hh]. unfold before_first_resize.
  destruct (computedMaxSize p) as [[w ht]|];
    cbn [setMaxSize settings designRatio designWidth designHeight
         deferResizeId sys_scale repaints renderer timers with_timers
         with_max defer snd pending maxWidth maxHeight];
    rewrite ?filter_app, ?app_nil_r;
    repeat split; try reflexivity; assumption.
Qed.

Lemma init_returns (game_width game_height : number) (o : Options)
  (p : Platform) (h : Host) (q : Timers) (v : Video) :
  init game_width game_height o p h q = ReturnTrue v ->
  initialized p = true
  /\ exists r,
       snd (select_renderer p (sanitize game_width game_height o p))
       = Returned r
       /\ onresize_throws (VBool true) h
            (before_first_resize game_width game_height o p h q r) = false
       /\ v = onresize (VBool true) h
                (before_first_resize game_width game_height o p h q r).
Proof.
  unfold init. destruct (initialized p); cbn [negb]; [|discriminate].
  destruct (snd (select_renderer p _)) as [r|e] eqn:Hsel;
    [|cbn [call console]; discriminate].
  destruct (onresize_throws _ _ _) eqn:Hthrows; [discriminate|].
  intros Hv. injection Hv as Hv. split; [reflexivity|].
  exists r. repeat split; [exact Hthrows|symmetry; exact Hv].
Qed.

Lemma not_thrown_applies (h : Host) (v : Video) :
  autoScale (settings v) = true ->
  onresize_throws (VBool true) h v
  = invalid_vector (fst (adjusted v h)) (snd (adjusted v h)).
Proof.
  intros Hauto. unfold onresize_throws, scale_throws. rewrite Hauto.
  reflexivity.
Qed.

(** X13: [init] throws the "called before engine initialization" error
    exactly when the engine is not initialized; it returns true exactly
    when the engine is initialized, a renderer could be constructed and
    the initial forced resize does not throw; it throws the vector
    setter's error exactly when the engine is initialized, a renderer
    was constructed and that resize throws (autoscaling on and a NaN
    factor).  Succeeding, it leaves the design size and ratio as given
    and [deferResizeId] reset. *)
Theorem init_outcomes (game_width game_height : number) (o : Options)
  (p : Platform) (h : Host) (q : Timers) :
  (initialized p = false <->
   init game_width game_height o p h q
   = Throw (ErrorMessage
              "me.video.init() called before engine initialization."))
  /\ ((exists v, init game_width game_height o p h q = ReturnTrue v) <->
      initialized p = true
      /\ exists r,
           snd (select_renderer p (sanitize game_width game_height o p))
           = Returned r
           /\ onresize_throws (VBool true) h
                (before_first_resize game_width game_height o p h q r)
              = false)
  /\ (init game_width game_height o p h q = Throw InvalidParameters <->
      initialized p = true
      /\ exists r,
           snd (select_renderer p (sanitize game_width game_height o p))
           = Returned r
           /\ onresize_throws (VBool true) h
                (before_first_resize game_width game_height o p h q r)
              = true)
  /\ (forall v,
        init game_width game_height o p h q = ReturnTrue v ->
        designWidth v = game_width
        /\ designHeight v = game_height
        /\ designRatio v = div game_width game_height
        /\ deferResizeId v = -1).
Proof.
  split; [|split; [|split]].
  - unfold init. destruct (initialized p); cbn [negb].
    + split; [discriminate|].
      destruct (snd (select_renderer p _));
        [destruct (onresize_throws _ _ _)|cbn [call console]];
        discriminate.
    + split; reflexivity.
  - split.
    + intros [v Hv]. apply init_returns in Hv.
      destruct Hv as (Hi & r & Hsel & Hthrows & _). split; [exact Hi|].
      exists r. split; assumption.
    + intros (Hi & r & Hsel & Hthrows). unfold init.
      rewrite Hi, Hsel, Hthrows. cbn [negb]. eexists. reflexivity.
  - unfold init. destruct (initialized p); cbn [negb].
    + destruct (snd (select_renderer p _)) as [r|e].
      * destruct (onresize_throws _ _ _) eqn:Hthrows.
        -- split; [|reflexivity]. intros _. split; [reflexivity|].
           exists r. split; [reflexivity|exact Hthrows].
        -- split; [discriminate|].
           intros (_ & r' & Hr' & Ht'). injection Hr' as <-.
           rewrite Hthrows in Ht'. discriminate Ht'.
      * cbn [call console]. split; [discriminate|].
        intros (_ & r' & Hr' & _). discriminate Hr'.
    + split; [discriminate|]. intros [Hi _]. discriminate Hi.
  - intros v Hv. apply init_returns in Hv.
    destruct Hv as (_ & r & _ & Hthrows & ->).
    set (v0 := before_first_resize game_width game_height o p h q r) in *.
    destruct (before_first_resize_facts game_width game_height o p h q r)
      as (_ & Hr & Hw & Hh & Hid & _).
    fold v0 in Hr, Hw, Hh, Hid.
    destruct (onresize_frame (VBool true) h v0) as (_ & Hr' & Hw' & Hh' & _).
    rewrite Hr', Hw', Hh', Hr, Hw, Hh. repeat split.
    destruct (autoScale (settings v0)) eqn:Hauto.
    + rewrite (not_thrown_applies h v0 Hauto) in Hthrows.
      apply (proj1 (proj2 (onresize_forced h v0 Hauto)) Hthrows).
    + rewrite (proj1 (proj2 (onresize_disabled (VBool true) h v0 Hauto))).
      exact Hid.
Qed.

Lemma init_outcomes_witness :
  (exists v,
     init (of_Z 640) (of_Z 480) (plain_options "fit" AUTO)
       (plain_platform true true) (window_host 1280 960) no_timers
     = ReturnTrue v)
  /\ init (of_Z 640) (of_Z 480) (plain_options "flex-width" AUTO)
       (plain_platform true true) (window_host 0 0) no_timers
     = Throw InvalidParameters.
Proof.
  split.
  - apply (proj2 (proj1 (proj2 (init_outcomes (of_Z 640) (of_Z 480)
                                  (plain_options "fit" AUTO)
                                  (plain_platform true true)
                                  (window_host 1280 960) no_timers)))).
    split; [reflexivity|]. eexists. split; reflexivity.
  - apply (proj2 (proj1 (proj2 (proj2
             (init_outcomes (of_Z 640) (of_Z 480)
                (plain_options "flex-width" AUTO)
                (plain_platform true true)
                (window_host 0 0) no_timers))))).
    split; [reflexivity|]. eexists. split; [reflexivity|].
    vm_compute. reflexivity.
Defined.

Lemma sanitize_scaleMethod_is_name (m : string) :
  In (sanitize_scaleMethod m) policy_names.
Proof.
  unfold sanitize_scaleMethod.
  destruct (search m scaleMethod_pattern =? 0) eqn:Hs; cbn [negb].
  - apply Z.eqb_eq in Hs. apply search_zero_policy_name, Hs.
  - left. reflexivity.
Qed.

(** X14: whatever string is passed as [scaleMethod], the sanitized value
    is one of the seven policy names and sanitizing again changes nothing;
    hence after a successful [init], and after any further events, the
    policy in the settings is always one of the seven names. *)
Theorem scaleMethod_is_always_a_policy_name (m : string) :
  In (sanitize_scaleMethod m) policy_names
  /\ sanitize_scaleMethod (sanitize_scaleMethod m) = sanitize_scaleMethod m
  /\ (forall game_width game_height o p h q v es,
        option_scaleMethod o = m ->
        init game_width game_height o p h q = ReturnTrue v ->
        In (scaleMethod (settings (run es v))) policy_names).
Proof.
  pose proof (sanitize_scaleMethod_is_name m) as Hin.
  split; [exact Hin|]. split.
  - cbn in Hin.
    repeat (destruct Hin as [<-|Hin]; [reflexivity|]).
    destruct Hin.
  - intros game_width game_height o p h q v es Ho Hv.
    apply init_returns in Hv.
    destruct Hv as (_ & r & _ & _ & ->).
    rewrite (proj1 (run_frame es _)).
    rewrite (proj1 (onresize_frame (VBool true) h _)).
    rewrite (proj1 (before_first_resize_facts game_width game_height
                      o p h q r)).
    cbn [sanitize scaleMethod]. apply sanitize_scaleMethod_is_name.
Qed.

Lemma scaleMethod_is_always_a_policy_name_witness :
  exists v,
    init (of_Z 640) (of_Z 480) (plain_options "Fit" AUTO)
      (plain_platform true true) (window_host 1280 960) no_timers
    = ReturnTrue v
    /\ scaleMethod (settings v) = "fit"%string
    /\ In (scaleMethod (settings v)) policy_names.
Proof.
  eexists. split; [reflexivity|]. split; [reflexivity|].
  exact (proj2 (proj2 (scaleMethod_is_always_a_policy_name "Fit"))
           (of_Z 640) (of_Z 480) (plain_options "Fit" AUTO)
           (plain_platform true true) (window_host 1280 960) no_timers
           _ [] eq_refl eq_refl).
Defined.

(** X15: with a numeric [scale] option, a successful [init] leaves
    autoscaling off and the global scale at (s, s), where s is the given
    number, or 1 when that is zero or NaN; the initial forced resize does
    not touch the canvas size the renderer was constructed with, repaints
    nothing and defers nothing; double buffering is forced unless
    s is 1. *)
Theorem init_with_fixed_scale (game_width game_height n : number)
  (o : Options) (p : Platform) (h : Host) (q : Timers) (v : Video) :
  option_scale o = ScaleNumber n ->
  init game_width game_height o p h q = ReturnTrue v ->
  autoScale (settings v) = false
  /\ sys_scale v = (or_else n (of_Z 1), or_else n (of_Z 1))
  /\ doubleBuffering (settings v)
     = (if strict_eq (or_else n (of_Z 1)) (of_Z 1)
        then option_doubleBuffering o else true)
  /\ zoomX (settings v) = mul game_width (or_else n (of_Z 1))
  /\ zoomY (settings v) = mul game_height (or_else n (of_Z 1))
  /\ repaints v = 0%nat
  /\ pending_scales v = filter is_scale_task (pending q)
  /\ (forall r,
        snd (select_renderer p (sanitize game_width game_height o p))
        = Returned r ->
        width (canvas (renderer v)) = width (canvas r)
        /\ height (canvas (renderer v)) = height (canvas r)).
Proof.
  intros Ho Hv. apply init_returns in Hv.
  destruct Hv as (_ & r & Hsel & _ & ->).
  set (v0 := before_first_resize game_width game_height o p h q r).
  destruct (before_first_resize_facts game_width game_height o p h q r)
    as (Hs & _ & _ & _ & _ & Hsc & Hrep & Hw & Hh & Hp & _).
  fold v0 in Hs, Hsc, Hrep, Hw, Hh, Hp.
  assert (Hsan : autoScale (sanitize game_width game_height o p) = false
                 /\ settings_scale (sanitize game_width game_height o p)
                    = or_else n (of_Z 1)).
  { unfold sanitize. cbn [autoScale settings_scale]. rewrite Ho.
    split; reflexivity. }
  destruct Hsan as [Hoff Hscale].
  assert (Hoff0 : autoScale (settings v0) = false)
    by (rewrite Hs; exact Hoff).
  destruct (onresize_disabled (VBool true) h v0 Hoff0) as (Ht & _ & Hss).
  destruct (onresize_keeps_surface (VBool true) h v0 (or_introl Hoff0))
    as [Hw' Hh'].
  rewrite (proj1 (onresize_frame (VBool true) h v0)), Hs.
  split; [exact Hoff|].
  split; [rewrite Hss, Hsc, Hscale; reflexivity|].
  split; [unfold sanitize; cbn [doubleBuffering]; rewrite Ho;
          cbn [orb]; destruct (strict_eq _ _); reflexivity|].
  split; [unfold sanitize; cbn [zoomX]; rewrite Ho; reflexivity|].
  split; [unfold sanitize; cbn [zoomY]; rewrite Ho; reflexivity|].
  split; [rewrite (onresize_off (VBool true) h v0 Hoff0); exact Hrep|].
  split; [unfold pending_scales; rewrite Ht; exact Hp|].
  intros r' Hsel'. rewrite Hsel in Hsel'. injection Hsel' as <-.
  rewrite Hw', Hh'. split; assumption.
Qed.

Lemma init_with_fixed_scale_witness :
  let o := {| option_renderer := CANVAS; option_doubleBuffering := false;
              option_scale := ScaleNumber (of_Z 0);
              option_scaleMethod := "fit";
              option_useParentDOMSize := false;
              option_transparent := false;
              option_blendMode := "normal"; option_antiAlias := false;
              option_preferWebGL1 := true |} in
  exists v,
    init (of_Z 640) (of_Z 480) o (plain_platform false true)
      (window_host 1280 960) no_timers
    = ReturnTrue v
    /\ sys_scale v = (of_Z 1, of_Z 1).
Proof.
  intros o. eexists. split; [reflexivity|].
  refine (eq_trans
            (proj1 (proj2 (init_with_fixed_scale (of_Z 640) (of_Z 480)
                             (of_Z 0) o (plain_platform false true)
                             (window_host 1280 960) no_timers _
                             eq_refl eq_refl))) _).
  reflexivity.
Defined.

(** X16: with [scale: "auto"], a successful [init] turns autoscaling and
    double buffering on, takes the display bounds from the computed style
    (a zero or NaN there meaning no bound), and its forced resize has
    already applied the computed factors when it returns: the global scale
    is the pair computed for the host, one repaint was requested and no
    application is left deferred. *)
Theorem init_with_auto_scale (game_width game_height : number)
  (o : Options) (p : Platform) (h : Host) (q : Timers) (v : Video) :
  option_scale o = ScaleAuto ->
  filter is_scale_task (pending q) = [] ->
  init game_width game_height o p h q = ReturnTrue v ->
  autoScale (settings v) = true
  /\ doubleBuffering (settings v) = true
  /\ settings_scale (settings v) = of_Z 1
  /\ maxWidth v = match computedMaxSize p with
                  | Some (w, _) => or_undef w Infinity
                  | None => Infinity
                  end
  /\ maxHeight v = match computedMaxSize p with
                   | Some (_, ht) => or_undef ht Infinity
                   | None => Infinity
                   end
  /\ sys_scale v = adjusted v h
  /\ repaints v = 1%nat
  /\ pending_scales v = [].
Proof.
  intros Ho Hq Hv. apply init_returns in Hv.
  destruct Hv as (_ & r & Hsel & Hthrows & ->).
  set (v0 := before_first_resize game_width game_height o p h q r) in *.
  destruct (before_first_resize_facts game_width game_height o p h q r)
    as (Hs & _ & _ & _ & Hid & _ & Hrep & _ & _ & Hp & Hmw & Hmh).
  fold v0 in Hs, Hid, Hrep, Hp, Hmw, Hmh.
  assert (Hauto0 : autoScale (settings v0) = true)
    by (rewrite Hs; unfold sanitize; cbn [autoScale]; rewrite Ho;
        reflexivity).
  rewrite (not_thrown_applies h v0 Hauto0) in Hthrows.
  destruct (onresize_frame (VBool true) h v0)
    as (Hs' & Hr' & Hw' & Hh' & Hmw' & Hmh').
  destruct (onresize_forced h v0 Hauto0) as (Ht & Hok & _).
  destruct (Hok Hthrows) as [_ Hrep'].
  rewrite Hs', Hs, Hmw', Hmh', Hmw, Hmh.
  split; [unfold sanitize; cbn [autoScale]; rewrite Ho; reflexivity|].
  split; [unfold sanitize; cbn [doubleBuffering]; rewrite Ho;
          reflexivity|].
  split; [unfold sanitize; cbn [settings_scale]; rewrite Ho;
          reflexivity|].
  split; [reflexivity|]. split; [reflexivity|].
  split.
  - rewrite (onresize_forced_sys_scale h v0 Hauto0 Hthrows). symmetry.
    apply (policy_frame v0 (onresize (VBool true) h v0) h); assumption.
  - split; [rewrite Hrep', Hrep; reflexivity|].
    unfold pending_scales. rewrite Ht. unfold after_cancel. rewrite Hid.
    cbn [Z.gtb Z.compare]. rewrite Hp. exact Hq.
Qed.

Lemma init_with_auto_scale_witness :
  exists v,
    init (of_Z 800) (of_Z 600) (plain_options "fit" AUTO)
      (plain_platform true true) (window_host 1600 900) no_timers
    = ReturnTrue v
    /\ sys_scale v = (div (of_Z 3) (of_Z 2), div (of_Z 3) (of_Z 2))
    /\ maxWidth v = Infinity.
Proof.
  eexists. split; [reflexivity|].
  destruct (init_with_auto_scale (of_Z 800) (of_Z 600)
              (plain_options "fit" AUTO) (plain_platform true true)
              (window_host 1600 900) no_timers _ eq_refl eq_refl eq_refl)
    as (_ & _ & _ & Hmw & _ & Hsc & _).
  split; [|exact Hmw].
  etransitivity; [exact Hsc|]. vm_compute. reflexivity.
Defined.

(** ** Creating a canvas *)

Lemma strict_eq_zero (x : number) :
  strict_eq x (of_Z 0) = true <-> exists s, x = S754_zero s.
Proof.
  destruct x as [s|[]| |[] m e]; cbn; split;
    try discriminate; try reflexivity;
    try (intros [s0 H]; discriminate H).
  intros _. exists s. reflexivity.
Qed.

(** X17: the guard of [createCanvas] rejects exactly the zeros: when the
    width or the height is a zero, of either sign, the call throws its
    "width or height was zero" error before any element is created;
    every other number, NaN and negative values included, passes the
    guard and is handed unchanged to the assignment of the new element's
    width and height, whose outcome is the call's.  The element is an
    OffscreenCanvas only when the device supports it and [offscreen] is
    the boolean true. *)
Theorem createCanvas_guards_zero {Element : Type}
  (assign : CanvasKind -> number -> number -> outcome Element)
  (w ht : number) (offscreen : jsval) (deviceOffscreen : bool) :
  ((exists s, w = S754_zero s) \/ (exists s, ht = S754_zero s) ->
   createCanvas assign w ht offscreen deviceOffscreen
   = Thrown (ErrorMessage
               "width or height was zero, Canvas could not be initialized !"))
  /\ ((forall s, w <> S754_zero s) -> (forall s, ht <> S754_zero s) ->
      (deviceOffscreen = true -> offscreen = VBool true ->
       createCanvas assign w ht offscreen deviceOffscreen
       = assign OffscreenCanvasElement w ht)
      /\ (deviceOffscreen = false \/ offscreen <> VBool true ->
          createCanvas assign w ht offscreen deviceOffscreen
          = assign HTMLCanvasElement w ht)).
Proof.
  unfold createCanvas. split.
  - intros [Hz|Hz]; apply strict_eq_zero in Hz; rewrite Hz;
      [|rewrite orb_true_r]; reflexivity.
  - intros Hw Hh.
    assert (Hw' : strict_eq w (of_Z 0) = false).
    { destruct (strict_eq w (of_Z 0)) eqn:E; [|reflexivity].
      apply strict_eq_zero in E. destruct E as [s0 E].
      contradiction (Hw s0). }
    assert (Hh' : strict_eq ht (of_Z 0) = false).
    { destruct (strict_eq ht (of_Z 0)) eqn:E; [|reflexivity].
      apply strict_eq_zero in E. destruct E as [s0 E].
      contradiction (Hh s0). }
    rewrite Hw', Hh'. cbn [orb]. split.
    + intros -> ->. reflexivity.
    + intros [->|Hoff]; [reflexivity|].
      destruct deviceOffscreen; [|reflexivity].
      destruct offscreen as [|[]| |]; try reflexivity.
      contradiction Hoff. reflexivity.
Qed.

Lemma createCanvas_guards_zero_witness :
  let assign := fun (k : CanvasKind) (w ht : number) =>
                  Returned (k, w, ht) in
  createCanvas assign (of_Z 640) (S754_zero true) VUndef false
  = Thrown (ErrorMessage
              "width or height was zero, Canvas could not be initialized !")
  /\ createCanvas assign NaN (of_Z (-5)) (VBool true) true
     = Returned (OffscreenCanvasElement, NaN, of_Z (-5)).
Proof.
  intros assign. split.
  - apply (proj1 (createCanvas_guards_zero assign (of_Z 640)
                    (S754_zero true) VUndef false)).
    right. exists true. reflexivity.
  - apply (proj2 (createCanvas_guards_zero assign NaN (of_Z (-5))
                    (VBool true) true));
      try reflexivity; intros s H; discriminate H.
Defined.

(** ** The size asked of the renderer *)

Lemma ToInt32_range (x : number) : - 2 ^ 31 <= ToInt32 x < 2 ^ 31.
Proof.
  unfold ToInt32. destruct x as [| | |s m e]; try lia.
  set (r := _ mod 2 ^ 32).
  assert (Hr : 0 <= r < 2 ^ 32) by (apply Z.mod_pos_bound; lia).
  destruct (r >=? 2 ^ 31) eqn:Hge.
  - rewrite Z.geb_leb in Hge. apply Z.leb_le in Hge. lia.
  - rewrite Z.geb_leb in Hge. apply Z.leb_gt in Hge. lia.
Qed.

(** X18: whenever a policy other than flex resizes the canvas, one
    dimension asked of the renderer is the design's and the other is a
    signed 32-bit integer (zero when the computed size is NaN or
    infinite); under flex both are the clamped container sizes. *)
Theorem resized_dimension_is_int32 (v : Video) (h : Host)
  (w ht : number) :
  surface (policy v h) = Some (w, ht) ->
  (scaleMethod (settings v) = "flex"%string
   /\ w = _max_width v h /\ ht = _max_height v h)
  \/ (exists n, - 2 ^ 31 <= n < 2 ^ 31
                /\ ((w = of_Z n /\ ht = designHeight v)
                    \/ (w = designWidth v /\ ht = of_Z n))).
Proof.
  unfold policy.
  destruct (_ || _ || (scaleMethod (settings v) =? "flex-width")%string);
    [|destruct (_ || _
                || (scaleMethod (settings v) =? "flex-height")%string);
      [|destruct (scaleMethod (settings v) =? "flex")%string eqn:Hflex;
        [|destruct (scaleMethod (settings v) =? "stretch")%string;
          [|destruct (num_lt _ _)]]]];
    cbn [surface]; intros Hs; try discriminate Hs;
    injection Hs as <- <-.
  - right. eexists. split; [apply ToInt32_range|]. left.
    split; reflexivity.
  - right. eexists. split; [apply ToInt32_range|]. right.
    split; reflexivity.
  - left. apply String.eqb_eq in Hflex. repeat split. exact Hflex.
Qed.

Lemma resized_dimension_is_int32_witness :
  let v := video_800x600 "flex-width" in
  let h := window_host 1000 0 in
  (scaleMethod (settings v) = "flex"%string
   /\ of_Z 0 = _max_width v h /\ of_Z 600 = _max_height v h)
  \/ (exists n, - 2 ^ 31 <= n < 2 ^ 31
                /\ ((of_Z 0 = of_Z n /\ of_Z 600 = designHeight v)
                    \/ (of_Z 0 = designWidth v /\ of_Z 600 = of_Z n))).
Proof.
  intros v h.
  apply (resized_dimension_is_int32 v h (of_Z 0) (of_Z 600)).
  vm_compute. reflexivity.
Defined.

(** ** A change of bounds reaches the scale *)

Lemma fire_setMaxSize (w ht : option number) (host : Host) (v : Video) :
  handles_fresh (timers v) ->
  fire (next_handle (timers v)) host (setMaxSize w ht v)
  = onresize VUndef host
      (with_timers {| pending := pending (timers v);
                      next_handle := next_handle (timers v) + 1 |}
         (with_max (or_undef w Infinity) (or_undef ht Infinity) v)).
Proof.
  intros [_ Hlt]. unfold fire, setMaxSize.
  cbn [timers with_timers with_max defer snd pending next_handle].
  rewrite (find_app_fresh _ TaskOnresize _ Hlt).
  unfold clearTimeout. cbn [pending next_handle].
  rewrite filter_app, (filter_fresh _ _ Hlt).
  cbn [filter fst]. rewrite Z.eqb_refl. cbn [negb].
  rewrite app_nil_r. reflexivity.
Qed.

(** X19: a change of bounds reaches the scale in two timer firings.  From
    a coordinated state with autoscaling on, once the handle issued by
    [setMaxSize] fires, exactly one application is pending, carrying the
    factors computed under the new bounds (any application pending before
    is cancelled); once that one fires nothing is pending, and when the
    factors are numbers they are the global scale and one repaint was
    requested. *)
Theorem bound_change_rescales (w ht : option number) (h1 h2 : Host)
  (v : Video) :
  coordinated v ->
  autoScale (settings v) = true ->
  let id := next_handle (timers v) in
  let bounded := with_max (or_undef w Infinity) (or_undef ht Infinity) v in
  let v1 := fire id h1 (setMaxSize w ht v) in
  let v2 := fire (id + 1) h2 v1 in
  pending_scales v1
  = [(id + 1, TaskScale (fst (adjusted bounded h1))
                        (snd (adjusted bounded h1)))]
  /\ sys_scale v1 = sys_scale v
  /\ pending_scales v2 = []
  /\ (invalid_vector (fst (adjusted bounded h1))
                     (snd (adjusted bounded h1)) = false ->
      sys_scale v2 = adjusted bounded h1
      /\ repaints v2 = S (repaints v)).
Proof.
  intros [Hfresh Hone] Hauto id bounded v1 v2.
  set (u := with_timers {| pending := pending (timers v);
                           next_handle := id + 1 |} bounded).
  assert (Hv1 : v1 = onresize VUndef h1 u)
    by (apply fire_setMaxSize, Hfresh).
  assert (Hfresh_u : handles_fresh (timers u)).
  { destruct Hfresh as [Hpos Hlt]. split; cbn; [fold id; lia|].
    intros p0 Hp0. apply Hlt in Hp0. fold id in Hp0. lia. }
  assert (Hone_u : at_most_one_pending u) by exact Hone.
  destruct (onresize_deferred VUndef h1 u Hauto eq_refl)
    as (Hp & Hn & Hid & Hs & Hr).
  rewrite <- Hv1 in Hp, Hn, Hid, Hs, Hr.
  change (next_handle (timers u)) with (id + 1) in Hp, Hn, Hid.
  change (adjusted u h1) with (adjusted bounded h1) in Hp.
  set (sx := fst (adjusted bounded h1)) in *.
  set (sy := snd (adjusted bounded h1)) in *.
  assert (Hlt : forall p0, In p0 (pending (after_cancel u)) ->
                           fst p0 < id + 1).
  { intros p0 Hp0. destruct (after_cancel_fresh u Hfresh_u) as [_ Hl].
    rewrite after_cancel_next in Hl. apply Hl, Hp0. }
  assert (Hfind : find (fun p0 => fst p0 =? id + 1) (pending (timers v1))
                  = Some (id + 1, TaskScale sx sy)).
  { rewrite Hp. apply find_app_fresh, Hlt. }
  split; [|split; [|split]].
  - unfold pending_scales. rewrite Hp, filter_app.
    rewrite (after_cancel_scales u Hone_u). reflexivity.
  - rewrite Hs. reflexivity.
  - unfold v2, fire. rewrite Hfind. unfold pending_scales.
    rewrite (proj1 (scale_bookkeeping sx sy h2 _)).
    cbn [timers with_timers clearTimeout pending].
    rewrite Hp, filter_app, (filter_fresh _ _ Hlt).
    cbn [filter fst]. rewrite Z.eqb_refl. cbn [negb].
    rewrite app_nil_r. apply (after_cancel_scales u Hone_u).
  - intros Hok. unfold v2, fire. rewrite Hfind.
    rewrite (scale_sys_scale _ _ _ _ Hok).
    rewrite (proj2 (proj2 (scale_bookkeeping sx sy h2 _) Hok)).
    cbn [repaints with_timers]. rewrite Hr.
    split; [symmetry; apply surjective_pairing|reflexivity].
Qed.

Lemma bound_change_rescales_witness :
  let v := video_800x600 "fit" in
  let h := window_host 1600 900 in
  let v2 := fire 2 h (fire 1 h (setMaxSize (Some (of_Z 400)) None v)) in
  sys_scale v2 = (half, half) /\ pending_scales v2 = [].
Proof.
  intros v h v2.
  assert (Hco : coordinated v).
  { split; [split; [vm_compute; reflexivity|intros p []]|].
    left. reflexivity. }
  destruct (bound_change_rescales (Some (of_Z 400)) None h h v Hco eq_refl)
    as (_ & _ & Hp & Hs).
  split; [|exact Hp].
  etransitivity; [apply Hs; vm_compute; reflexivity|].
  vm_compute. reflexivity.
Defined.

(** ** Applying a scale again *)

(** X20: a call of [scale] whose arguments are numbers overwrites what
    earlier calls left: the canvas style and the global scale it leaves
    depend on its arguments, the pixel ratio and the drawing-buffer size
    only; it sets the anti-alias and blend flags back to the renderer's
    settings and resets the pending id.  A call with a NaN argument
    throws and changes nothing. *)
Theorem scale_overwrites (x y x' y' : number) (h h' : Host) (v : Video) :
  (scale_throws x' y' = false ->
   canvas (renderer (scale x' y' h' (scale x y h v)))
   = canvas (renderer (scale x' y' h' v))
   /\ sys_scale (scale x' y' h' (scale x y h v)) = (x', y')
   /\ smoothing (renderer (scale x' y' h' (scale x y h v)))
      = antiAlias (renderer_settings (renderer v))
   /\ blend (renderer (scale x' y' h' (scale x y h v)))
      = blendMode (renderer_settings (renderer v))
   /\ deferResizeId (scale x' y' h' (scale x y h v)) = -1)
  /\ (scale_throws x' y' = true -> scale x' y' h' v = v).
Proof.
  unfold scale_throws. split.
  - intros Hok. unfold scale. rewrite Hok.
    destruct (invalid_vector x y);
      destruct (num_gt (devicePixelRatio h) (of_Z 1)),
               (num_gt (devicePixelRatio h') (of_Z 1));
      repeat split; reflexivity.
  - apply scale_invalid.
Qed.

Lemma scale_overwrites_witness :
  let v := video_800x600 "fit" in
  let h := window_host 1000 700 in
  sys_scale (scale (of_Z 2) (of_Z 3) h (scale half half h v))
  = (of_Z 2, of_Z 3)
  /\ scale NaN (of_Z 3) h v = v.
Proof.
  intros v h.
  destruct (scale_overwrites half half (of_Z 2) (of_Z 3) h h v)
    as [Hok _].
  destruct (scale_overwrites half half NaN (of_Z 3) h h v) as [_ Hthrow].
  split; [apply (Hok eq_refl)|apply (Hthrow eq_refl)].
Defined.

(** ** Measuring the container *)

(** X21: the container width and height used by [onresize] are never a
    zero or a NaN taken from the parent node: an undefined [parentNode]
    (a host without DOM), or a node whose measure is undefined or falsy,
    falls back to the window's inner size; and the bounding rectangle is
    consulted only when [useParentDOMSize] is on, a zero width there
    being replaced by [right - left]. *)
Theorem container_falls_back_to_window (v : Video) (h : Host) :
  (truthy (containerWidth v h) = true \/ containerWidth v h = innerWidth h)
  /\ (truthy (containerHeight v h) = true
      \/ containerHeight v h = innerHeight h)
  /\ (parentNode h = None ->
      containerWidth v h = innerWidth h
      /\ containerHeight v h = innerHeight h)
  /\ (forall node,
        parentNode h = Some node ->
        useParentDOMSize (settings v) = false ->
        containerWidth v h = or_undef (node_width node) (innerWidth h)
        /\ containerHeight v h = or_undef (node_height node) (innerHeight h))
  /\ (forall node rect s,
        parentNode h = Some node ->
        useParentDOMSize (settings v) = true ->
        getBoundingClientRect node = Some rect ->
        rect_width rect = S754_zero s ->
        containerWidth v h
        = or_else (sub (rect_right rect) (rect_left rect)) (innerWidth h)).
Proof.
  assert (Hor : forall a b, truthy (or_undef a b) = true \/ or_undef a b = b).
  { intros [a|] b; cbn [or_undef]; [|right; reflexivity].
    unfold or_else. destruct (truthy a) eqn:Ha; [left; exact Ha|].
    right. reflexivity. }
  unfold containerWidth, containerHeight.
  split; [apply Hor|]. split; [apply Hor|].
  unfold parentNodeSize. split; [|split].
  - intros ->. split; reflexivity.
  - intros node -> ->. split; reflexivity.
  - intros node rect s -> -> -> Hz. cbn [fst or_undef].
    unfold or_else at 2. rewrite Hz. reflexivity.
Qed.

Lemma container_falls_back_to_window_witness :
  let v := video_800x600 "fit" in
  let h := {| innerWidth := of_Z 1024; innerHeight := of_Z 768;
              devicePixelRatio := of_Z 1;
              parentNode :=
                Some {| getBoundingClientRect := None;
                        node_width := Some (of_Z 0);
                        node_height := None |} |} in
  containerWidth v h = of_Z 1024 /\ containerHeight v h = of_Z 768.
Proof.
  intros v h.
  destruct (container_falls_back_to_window v h) as (_ & _ & _ & Hnode & _).
  destruct (Hnode _ eq_refl eq_refl) as [Hw Hh].
  rewrite Hw, Hh. split; reflexivity.
Defined.

(** ** High-DPI style at initialization *)

(** X22: with a numeric [scale] option (autoscaling off), a successful
    [init] on a device whose pixel ratio is above 1 leaves the canvas
    displayed at its drawing-buffer size divided by the ratio; at a ratio
    of 1 or below (or NaN) the style the renderer was constructed with is
    kept. *)
Theorem init_hidpi_style (game_width game_height n : number)
  (o : Options) (p : Platform) (h : Host) (q : Timers) (v : Video)
  (r : Renderer) :
  option_scale o = ScaleNumber n ->
  snd (select_renderer p (sanitize game_width game_height o p))
  = Returned r ->
  init game_width game_height o p h q = ReturnTrue v ->
  canvas (renderer v)
  = if num_gt (devicePixelRatio h) (of_Z 1)
    then {| width := width (canvas r); height := height (canvas r);
            style_width := Some (div (width (canvas r))
                                     (devicePixelRatio h));
            style_height := Some (div (height (canvas r))
                                      (devicePixelRatio h)) |}
    else canvas r.
Proof.
  intros Ho Hsel Hv. apply init_returns in Hv.
  destruct Hv as (_ & r' & Hsel' & _ & ->).
  rewrite Hsel in Hsel'. injection Hsel' as <-.
  assert (Hoff : autoScale (sanitize game_width game_height o p) = false)
    by (unfold sanitize; cbn [autoScale]; rewrite Ho; reflexivity).
  rewrite onresize_off
    by (rewrite (proj1 (before_first_resize_facts game_width game_height
                          o p h q r)); exact Hoff).
  unfold before_first_resize, hidpi_style.
  destruct (computedMaxSize p) as [[w ht]|];
    destruct (num_gt (devicePixelRatio h) (of_Z 1)); reflexivity.
Qed.

Lemma init_hidpi_style_witness :
  let o := {| option_renderer := CANVAS; option_doubleBuffering := false;
              option_scale := ScaleNumber (of_Z 1);
              option_scaleMethod := "fit";
              option_useParentDOMSize := false;
              option_transparent := false;
              option_blendMode := "normal"; option_antiAlias := false;
              option_preferWebGL1 := true |} in
  let h := {| innerWidth := of_Z 1280; innerHeight := of_Z 960;
              devicePixelRatio := of_Z 2; parentNode := None |} in
  exists v,
    init (of_Z 800) (of_Z 600) o (plain_platform false true) h no_timers
    = ReturnTrue v
    /\ style_width (canvas (renderer v)) = Some (of_Z 400).
Proof.
  intros o h. eexists. split; [reflexivity|].
  rewrite (init_hidpi_style (of_Z 800) (of_Z 600) (of_Z 1) o
             (plain_platform false true) h no_timers _ _
             eq_refl eq_refl eq_refl).
  vm_compute. reflexivity.
Defined.
